(** * Slot-game: reel motion state machine and reel-area orchestration

    A shallow embedding of the TypeScript sources [Reel.ts] (three drafts:
    the downward-only reel, the up/down reel and the four-direction reel),
    [ReelArea.ts], [AssetLoader.ts] and [config.ts].

    Conventions of the embedding.
    - A JavaScript [number] is an exact rational ([Q]): rounding, NaN and
      the infinities of IEEE doubles are not modelled.  Array lengths and
      counters that the code only increments are [nat].
    - The GSAP driver is external.  What the code asks of it (a tween on
      [this.position], a delayed call) is recorded in the state; what the
      driver does back (render a frame and run [onUpdate], resolve the
      awaited promise, fire a delayed call) is an explicit event.
    - [Math.random()] is an oracle: the k-th call returns [random k]. *)

From Stdlib Require Import QArith Qround Lqa ZArith List Bool Arith Lia.
From Stdlib Require Import Permutation SetoidList SetoidPermutation.
Import ListNotations.

Set Warnings "-notation-for-abbreviation".

Open Scope Q_scope.

(** ** JavaScript numbers *)

Module Js.

(** [a > b] *)
Definition gt (a b : Q) : bool := negb (Qle_bool a b).

(** [a >= b] *)
Definition ge (a b : Q) : bool := Qle_bool b a.

(** [a <= b] *)
Definition le (a b : Q) : bool := Qle_bool a b.

(** [a !== b] on numbers *)
Definition neq (a b : Q) : bool := negb (Qeq_bool a b).

(** A [number] that holds an array index or a length. *)
Definition ofNat (n : nat) : Q := inject_Z (Z.of_nat n).

(** Truncation toward zero. *)
Definition trunc (a : Q) : Z := Z.quot (Qnum a) (Zpos (Qden a)).

(** [a % b]: the remainder has the sign of the dividend.  ([b = 0] gives
    NaN in JavaScript; here it gives [a].) *)
Definition rem (a b : Q) : Q := a - b * inject_Z (trunc (a / b)).

End Js.

(** ** config.ts *)

Inductive MovingDirection := DOWN | UP | LEFT | RIGHT.

Module Config.

Record GameConfig := mkGameConfig {
  reelsCount : nat;
  symbolsPerReel : nat;
  reelAreaWidth : Q;
  reelAreaHeight : Q;
  spinningSpeed : Q;
  stopDelay : Q;
  stopInterval : Q;
  startInterval : Q;
  movingDirection : MovingDirection;
}.

(** The hard-coded [gameConfig] object.  [movingDirection] is read by the
    later drafts although the object shown does not define it. *)
Definition gameConfig (dir : MovingDirection) : GameConfig :=
  mkGameConfig 6 4 800 400 3 4000 400 400 dir.

End Config.

(** ** AssetLoader.ts and ReelSymbol.ts *)

(** The identity of a loaded pixi [Texture]. *)
Definition Texture := nat.

Module AssetLoader.

(** [symbols[Math.floor(Math.random() * symbols.length)]], where [u] is the
    value [Math.random()] returned and [symbols] is
    [loadedTextures.symbols]; [None] is [undefined], what indexing past the
    array gives.  ([main] awaits [load] before it builds the game, so the
    not-loaded [throw] is out of reach of the reels.) *)
Definition getRandomSymbolTexture (symbols : list Texture) (u : Q) : option Texture :=
  let i := Qfloor (u * Js.ofNat (length symbols)) in
  if (i <? 0)%Z then None else nth_error symbols (Z.to_nat i).

End AssetLoader.

Record ReelSymbol := mkReelSymbol {
  texture : option Texture;
  width : Q;
  height : Q;
  x : Q;      (* position.x *)
  y : Q;      (* position.y *)
}.

Module ReelSymbol.

Definition constructor (t : option Texture) (w h : Q) : ReelSymbol :=
  mkReelSymbol t w h 0 0.

Definition setY (v : Q) (s : ReelSymbol) : ReelSymbol :=
  mkReelSymbol (texture s) (width s) (height s) (x s) v.

Definition setX (v : Q) (s : ReelSymbol) : ReelSymbol :=
  mkReelSymbol (texture s) (width s) (height s) v (y s).

Definition setTexture (t : option Texture) (s : ReelSymbol) : ReelSymbol :=
  mkReelSymbol t (width s) (height s) (x s) (y s).

End ReelSymbol.

Inductive ReelEvents := stoppedSpinning.

(** The [const tween] of [startSpinning], as far as the code reads and
    writes it: [tween.time()], [tween.time(t, true)], [tween.pause()]. *)
Record Tween := mkTween {
  time : Q;
  paused : bool;
}.

(** What the driver does to a reel, and the calls the reel area makes. *)
Inductive Event :=
| CallStartSpinning            (* reel.startSpinning() *)
| CallStopSpinning             (* reel.stopSpinning() *)
| EaseInFrame (v : Q)          (* a frame of the awaited ease-in tween *)
| EaseInComplete               (* its last frame; the await resumes *)
| LoopFrame (t : Q)            (* a frame of [tween], whose time is now [t] *)
| StoppingFrame (v : Q)        (* a frame of the awaited back.out tween *)
| StoppingComplete.            (* its last frame; the await resumes *)

Definition eps : Q := 1 # 10.

(** ** Reel.ts, the downward-only draft *)

Module Reel.

Record Reel := mkReel {
  symbols : list ReelSymbol;
  stopping : bool;
  backoutStarted : bool;
  needsToStop : bool;
  symbolWidth : Q;
  symbolHeight : Q;
  reelAreaWidth : Q;
  reelAreaHeight : Q;
  spinningTweenDuration : Q;
  positionY : Q;                 (* this.position.y *)
}.

(** A reel together with the part of the outside world it acts on. *)
Record State := mkState {
  reel : Reel;
  easeInRunning : bool;          (* the ease-in tween is in flight *)
  tween : option Tween;          (* the looping tween, once created *)
  stoppingRunning : bool;        (* the back.out tween is in flight *)
  randomCalls : nat;             (* calls of Math.random() so far *)
  emitted : list ReelEvents;     (* notifications so far, oldest first *)
}.

Definition setSymbols (v : list ReelSymbol) (r : Reel) : Reel :=
  mkReel v (stopping r) (backoutStarted r) (needsToStop r) (symbolWidth r)
         (symbolHeight r) (reelAreaWidth r) (reelAreaHeight r)
         (spinningTweenDuration r) (positionY r).

Definition setStopping (v : bool) (r : Reel) : Reel :=
  mkReel (symbols r) v (backoutStarted r) (needsToStop r) (symbolWidth r)
         (symbolHeight r) (reelAreaWidth r) (reelAreaHeight r)
         (spinningTweenDuration r) (positionY r).

Definition setBackoutStarted (v : bool) (r : Reel) : Reel :=
  mkReel (symbols r) (stopping r) v (needsToStop r) (symbolWidth r)
         (symbolHeight r) (reelAreaWidth r) (reelAreaHeight r)
         (spinningTweenDuration r) (positionY r).

Definition setNeedsToStop (v : bool) (r : Reel) : Reel :=
  mkReel (symbols r) (stopping r) (backoutStarted r) v (symbolWidth r)
         (symbolHeight r) (reelAreaWidth r) (reelAreaHeight r)
         (spinningTweenDuration r) (positionY r).

Definition setPositionY (v : Q) (r : Reel) : Reel :=
  mkReel (symbols r) (stopping r) (backoutStarted r) (needsToStop r) (symbolWidth r)
         (symbolHeight r) (reelAreaWidth r) (reelAreaHeight r)
         (spinningTweenDuration r) v.

Definition setReel (v : Reel) (w : State) : State :=
  mkState v (easeInRunning w) (tween w) (stoppingRunning w) (randomCalls w) (emitted w).

Definition setEaseInRunning (v : bool) (w : State) : State :=
  mkState (reel w) v (tween w) (stoppingRunning w) (randomCalls w) (emitted w).

Definition setTween (v : option Tween) (w : State) : State :=
  mkState (reel w) (easeInRunning w) v (stoppingRunning w) (randomCalls w) (emitted w).

Definition setStoppingRunning (v : bool) (w : State) : State :=
  mkState (reel w) (easeInRunning w) (tween w) v (randomCalls w) (emitted w).

Definition setRandomCalls (v : nat) (w : State) : State :=
  mkState (reel w) (easeInRunning w) (tween w) (stoppingRunning w) v (emitted w).

Definition emit (e : ReelEvents) (w : State) : State :=
  mkState (reel w) (easeInRunning w) (tween w) (stoppingRunning w) (randomCalls w)
          (emitted w ++ [e]).

Section World.

Variable symbolTextures : list Texture.   (* loadedTextures.symbols *)
Variable random : nat -> Q.               (* the k-th Math.random() *)

Definition getRandomSymbolTexture (k : nat) : option Texture :=
  AssetLoader.getRandomSymbolTexture symbolTextures (random k).

(** [Array.from({ length }, () => new ReelSymbol(random texture, w, h))] *)
Definition newSymbols (w h : Q) (length k : nat) : list ReelSymbol :=
  map (fun j => ReelSymbol.constructor (getRandomSymbolTexture (k + j)) w h)
      (seq 0 length).

(** [for (const [i, symbol] of this.symbols.entries()) symbol.y = (i - 1) * h] *)
Definition placeSymbols (h : Q) (l : list ReelSymbol) : list ReelSymbol :=
  map (fun p => ReelSymbol.setY ((Js.ofNat (fst p) - 1) * h) (snd p))
      (combine (seq 0 (length l)) l).

Definition constructor (config : Config.GameConfig) (k : nat) : State :=
  let symbolWidth := Config.reelAreaWidth config / Js.ofNat (Config.reelsCount config) in
  let symbolHeight :=
    Config.reelAreaHeight config / Js.ofNat (Config.symbolsPerReel config) in
  let length := (Config.symbolsPerReel config + 1)%nat in
  mkState
    (mkReel (placeSymbols symbolHeight (newSymbols symbolWidth symbolHeight length k))
            false false false
            symbolWidth symbolHeight
            (Config.reelAreaWidth config) (Config.reelAreaHeight config)
            (1000 / (Js.ofNat (Config.symbolsPerReel config) * Config.spinningSpeed config))
            0)
    false None false (k + length) [].

(** The body of the [for] loop of [loopReel], on one symbol; [k] counts the
    calls of [Math.random()]. *)
Definition loopSymbol (r : Reel) (s : ReelSymbol) (k : nat) : ReelSymbol * nat :=
  let s1 := ReelSymbol.setY (y s + symbolHeight r) s in
  if Js.ge (y s1) (reelAreaHeight r - eps)
  then (ReelSymbol.setTexture (getRandomSymbolTexture k)
          (ReelSymbol.setY (- symbolHeight r) s1), S k)
  else (s1, k).

Fixpoint loopSymbols (r : Reel) (l : list ReelSymbol) (k : nat) : list ReelSymbol * nat :=
  match l with
  | [] => ([], k)
  | s :: l' =>
      let (s', k1) := loopSymbol r s k in
      let (l'', k2) := loopSymbols r l' k1 in
      (s' :: l'', k2)
  end.

Definition loopReel (w : State) : State :=
  let (l, k) := loopSymbols (reel w) (symbols (reel w)) (randomCalls w) in
  setRandomCalls k (setReel (setSymbols l (reel w)) w).

Definition stopSpinning (w : State) : State :=
  setReel (setNeedsToStop true (reel w)) w.

(** [beginStoppingAnimation] up to its [await]. *)
Definition beginStoppingAnimation (w : State) : State :=
  if stopping (reel w) then w
  else
    setStoppingRunning true
      (setReel (setBackoutStarted false (setStopping true (reel w))) w).

(** The test of the [if] in the back.out tween's [onUpdate]. *)
Definition backoutGuard (r : Reel) : bool :=
  negb (backoutStarted r) && Js.ge (positionY r) (symbolHeight r).

(** The body of that [if]. *)
Definition backoutCompensation (w : State) : State :=
  let w1 := loopReel w in
  let r1 := reel w1 in
  let l := map (fun s => ReelSymbol.setY (y s - symbolHeight r1) s) (symbols r1) in
  setReel (setBackoutStarted true (setSymbols l r1)) w1.

(** [onUpdate] of the back.out tween. *)
Definition stoppingOnUpdate (w : State) : State :=
  if backoutGuard (reel w) then backoutCompensation w else w.

(** [beginStoppingAnimation] after its [await]. *)
Definition beginStoppingAnimationResume (w : State) : State :=
  let w1 := loopReel w in
  let w2 := setReel (setStopping false (setPositionY 0 (reel w1))) w1 in
  emit stoppedSpinning w2.

(** [startSpinning] up to its [await]. *)
Definition startSpinning (w : State) : State :=
  setEaseInRunning true w.

(** Where an [ease: "none"] tween from 0 to [symbolHeight * 2] over
    [spinningTweenDuration * 2] puts [position.y] at time [t]. *)
Definition tweenValue (r : Reel) (t : Q) : Q :=
  symbolHeight r * 2 * (t / (spinningTweenDuration r * 2)).

(** [tween.time(t, true)]: move the playhead and render, no callbacks. *)
Definition tweenSeek (t : Q) (w : State) : State :=
  match tween w with
  | None => w
  | Some tw =>
      setTween (Some (mkTween t (paused tw)))
               (setReel (setPositionY (tweenValue (reel w) t) (reel w)) w)
  end.

(** [tween.pause()] *)
Definition tweenPause (w : State) : State :=
  match tween w with
  | None => w
  | Some tw => setTween (Some (mkTween (time tw) true)) w
  end.

(** [onUpdate] of the looping tween. *)
Definition tweenOnUpdate (w : State) : State :=
  match tween w with
  | None => w
  | Some tw =>
      let time := time tw in
      if Js.gt time (spinningTweenDuration (reel w)) then
        let w1 := loopReel w in
        let w2 := tweenSeek (Js.rem time (spinningTweenDuration (reel w1))) w1 in
        if needsToStop (reel w2)
        then beginStoppingAnimation (tweenPause w2)
        else w2
      else w
  end.

(** [startSpinning] after its [await]. *)
Definition startSpinningResume (w : State) : State :=
  let w1 := loopReel w in
  let w2 := setReel (setNeedsToStop false (setPositionY 0 (reel w1))) w1 in
  setTween (Some (mkTween 0 false)) w2.

(** One event of the driver or of the reel area. *)
Definition step (w : State) (e : Event) : State :=
  match e with
  | CallStartSpinning => startSpinning w
  | CallStopSpinning => stopSpinning w
  | EaseInFrame v =>
      if easeInRunning w then setReel (setPositionY v (reel w)) w else w
  | EaseInComplete =>
      if easeInRunning w then
        startSpinningResume
          (setEaseInRunning false
             (setReel (setPositionY (symbolHeight (reel w)) (reel w)) w))
      else w
  | LoopFrame t =>
      match tween w with
      | Some tw => if paused tw then w else tweenOnUpdate (tweenSeek t w)
      | None => w
      end
  | StoppingFrame v =>
      if stoppingRunning w
      then stoppingOnUpdate (setReel (setPositionY v (reel w)) w)
      else w
  | StoppingComplete =>
      if stoppingRunning w then
        beginStoppingAnimationResume
          (setStoppingRunning false
             (stoppingOnUpdate
                (setReel (setPositionY (symbolHeight (reel w)) (reel w)) w)))
      else w
  end.

Definition run (w : State) (evs : list Event) : State := fold_left step evs w.

(** How often the [if] of the back.out tween's [onUpdate] is entered when
    the driver renders the given values of [position.y], one per frame. *)
Fixpoint backoutFirings (w : State) (frames : list Q) : nat :=
  match frames with
  | [] => 0
  | v :: frames' =>
      let w0 := setReel (setPositionY v (reel w)) w in
      ((if backoutGuard (reel w0) then 1 else 0)
       + backoutFirings (stoppingOnUpdate w0) frames')%nat
  end.

End World.

Definition positions (w : State) : list Q := map y (symbols (reel w)).

Definition textures (w : State) : list (option Texture) :=
  map texture (symbols (reel w)).

(** The wrap test of [loopReel] on the symbol [s], as the pass finds it. *)
Definition crossed (r : Reel) (s : ReelSymbol) : bool :=
  Js.ge (y s + symbolHeight r) (reelAreaHeight r - eps).

(** How many symbols before index [i] a pass wraps: the calls of
    [Math.random()] it has made when it reaches index [i]. *)
Definition drawsBefore (r : Reel) (l : list ReelSymbol) (i : nat) : nat :=
  length (filter (crossed r) (firstn i l)).

(** Where one [loopReel] pass puts a symbol that was at [p]. *)
Definition advance (r : Reel) (p : Q) : Q :=
  if Js.ge (p + symbolHeight r) (reelAreaHeight r - eps)
  then - symbolHeight r
  else p + symbolHeight r.

(** The offsets [-h, 0, h, ..., (n - 1) * h] the constructor gives the
    [n + 1] symbols of a reel. *)
Definition restingOffsets (h : Q) (n : nat) : list Q :=
  map (fun i => (Js.ofNat i - 1) * h) (seq 0 (n + 1)).

(** The reel area is [n] symbols high, and a symbol is higher than the
    tolerance of the wrap test. *)
Definition geometry (n : nat) (r : Reel) : Prop :=
  reelAreaHeight r == Js.ofNat n * symbolHeight r /\ eps < symbolHeight r.

(** The symbols sit on the resting offsets, in some order. *)
Definition atGrid (n : nat) (w : State) : Prop :=
  PermutationA Qeq (positions w) (restingOffsets (symbolHeight (reel w)) n).

(** The symbols sit one symbol height above the resting offsets. *)
Definition atGridShifted (n : nat) (w : State) : Prop :=
  PermutationA Qeq (positions w)
    (map (fun p => p - symbolHeight (reel w))
         (restingOffsets (symbolHeight (reel w)) n)).

(** The three phases of a spin, with the symbols on the resting offsets:
    easing in; looping, or paused at a wrap with the stop begun; stopping. *)
Definition easeInPhase (n : nat) (e0 : list ReelEvents) (w : State) : Prop :=
  geometry n (reel w) /\ atGrid n w
  /\ easeInRunning w = true
  /\ stopping (reel w) = false
  /\ stoppingRunning w = false
  /\ emitted w = e0.

Definition loopPhase (n : nat) (e0 : list ReelEvents) (w : State) : Prop :=
  geometry n (reel w) /\ atGrid n w
  /\ stoppingRunning w = stopping (reel w)
  /\ emitted w = e0
  /\ (exists tw, tween w = Some tw /\ paused tw = stopping (reel w))
  /\ (stopping (reel w) = true -> backoutStarted (reel w) = false).

Definition stopPhase (n : nat) (e0 : list ReelEvents) (w : State) : Prop :=
  geometry n (reel w)
  /\ stopping (reel w) = true
  /\ stoppingRunning w = true
  /\ emitted w = e0
  /\ (if backoutStarted (reel w) then atGridShifted n w else atGrid n w).

(** What holds from [startSpinning] until the ease-in completes. *)
Definition easingIn (w0 w : State) : Prop :=
  easeInRunning w = true
  /\ stopping (reel w) = false
  /\ spinningTweenDuration (reel w) = spinningTweenDuration (reel w0)
  /\ stoppingRunning w = stoppingRunning w0
  /\ emitted w = emitted w0.

(** What holds while the reel loops with no stop requested. *)
Definition loopingFree (w0 w : State) : Prop :=
  needsToStop (reel w) = false
  /\ stopping (reel w) = false
  /\ (exists tw, tween w = Some tw /\ paused tw = false)
  /\ spinningTweenDuration (reel w) = spinningTweenDuration (reel w0)
  /\ stoppingRunning w = stoppingRunning w0
  /\ emitted w = emitted w0.

End Reel.
(** ** Reel.ts, the up/down draft *)

Module ReelUpDown.

Record Reel := mkReel {
  symbols : list ReelSymbol;
  stopping : bool;
  backoutStarted : bool;
  needsToStop : bool;
  symbolWidth : Q;
  symbolHeight : Q;
  reelAreaWidth : Q;
  reelAreaHeight : Q;
  movingDirection : MovingDirection;
  spinningTweenDuration : Q;
  positionY : Q;                 (* this.position.y *)
}.

(** A reel together with the part of the outside world it acts on. *)
Record State := mkState {
  reel : Reel;
  easeInRunning : bool;          (* the ease-in tween is in flight *)
  tween : option Tween;          (* the looping tween, once created *)
  stoppingRunning : bool;        (* the back.out tween is in flight *)
  randomCalls : nat;             (* calls of Math.random() so far *)
  emitted : list ReelEvents;     (* notifications so far, oldest first *)
}.

Definition setSymbols (v : list ReelSymbol) (r : Reel) : Reel :=
  mkReel v (stopping r) (backoutStarted r) (needsToStop r) (symbolWidth r)
         (symbolHeight r) (reelAreaWidth r) (reelAreaHeight r)
         (movingDirection r) (spinningTweenDuration r) (positionY r).

Definition setStopping (v : bool) (r : Reel) : Reel :=
  mkReel (symbols r) v (backoutStarted r) (needsToStop r) (symbolWidth r)
         (symbolHeight r) (reelAreaWidth r) (reelAreaHeight r)
         (movingDirection r) (spinningTweenDuration r) (positionY r).

Definition setBackoutStarted (v : bool) (r : Reel) : Reel :=
  mkReel (symbols r) (stopping r) v (needsToStop r) (symbolWidth r)
         (symbolHeight r) (reelAreaWidth r) (reelAreaHeight r)
         (movingDirection r) (spinningTweenDuration r) (positionY r).

Definition setNeedsToStop (v : bool) (r : Reel) : Reel :=
  mkReel (symbols r) (stopping r) (backoutStarted r) v (symbolWidth r)
         (symbolHeight r) (reelAreaWidth r) (reelAreaHeight r)
         (movingDirection r) (spinningTweenDuration r) (positionY r).

Definition setPositionY (v : Q) (r : Reel) : Reel :=
  mkReel (symbols r) (stopping r) (backoutStarted r) (needsToStop r) (symbolWidth r)
         (symbolHeight r) (reelAreaWidth r) (reelAreaHeight r)
         (movingDirection r) (spinningTweenDuration r) v.

Definition setReel (v : Reel) (w : State) : State :=
  mkState v (easeInRunning w) (tween w) (stoppingRunning w) (randomCalls w) (emitted w).

Definition setEaseInRunning (v : bool) (w : State) : State :=
  mkState (reel w) v (tween w) (stoppingRunning w) (randomCalls w) (emitted w).

Definition setTween (v : option Tween) (w : State) : State :=
  mkState (reel w) (easeInRunning w) v (stoppingRunning w) (randomCalls w) (emitted w).

Definition setStoppingRunning (v : bool) (w : State) : State :=
  mkState (reel w) (easeInRunning w) (tween w) v (randomCalls w) (emitted w).

Definition setRandomCalls (v : nat) (w : State) : State :=
  mkState (reel w) (easeInRunning w) (tween w) (stoppingRunning w) v (emitted w).

Definition emit (e : ReelEvents) (w : State) : State :=
  mkState (reel w) (easeInRunning w) (tween w) (stoppingRunning w) (randomCalls w)
          (emitted w ++ [e]).

(** [this.movingDirection === MovingDirection.DOWN] *)
Definition directionIsDown (r : Reel) : bool :=
  match movingDirection r with DOWN => true | _ => false end.

Section World.

Variable symbolTextures : list Texture.   (* loadedTextures.symbols *)
Variable random : nat -> Q.               (* the k-th Math.random() *)

Definition getRandomSymbolTexture (k : nat) : option Texture :=
  AssetLoader.getRandomSymbolTexture symbolTextures (random k).

(** [Array.from({ length }, () => new ReelSymbol(random texture, w, h))] *)
Definition newSymbols (w h : Q) (length k : nat) : list ReelSymbol :=
  map (fun j => ReelSymbol.constructor (getRandomSymbolTexture (k + j)) w h)
      (seq 0 length).

(** [const index = this.movingDirection === MovingDirection.DOWN ? i - 1 : i;
    symbol.y = index * this.symbolHeight] *)
Definition placeSymbols (dir : MovingDirection) (h : Q) (l : list ReelSymbol)
    : list ReelSymbol :=
  map (fun p =>
         let index := match dir with
                      | DOWN => Js.ofNat (fst p) - 1
                      | _ => Js.ofNat (fst p)
                      end in
         ReelSymbol.setY (index * h) (snd p))
      (combine (seq 0 (length l)) l).

Definition constructor (config : Config.GameConfig) (k : nat) : State :=
  let symbolWidth := Config.reelAreaWidth config / Js.ofNat (Config.reelsCount config) in
  let symbolHeight :=
    Config.reelAreaHeight config / Js.ofNat (Config.symbolsPerReel config) in
  let length := (Config.symbolsPerReel config + 1)%nat in
  mkState
    (mkReel (placeSymbols (Config.movingDirection config) symbolHeight
               (newSymbols symbolWidth symbolHeight length k))
            false false false
            symbolWidth symbolHeight
            (Config.reelAreaWidth config) (Config.reelAreaHeight config)
            (Config.movingDirection config)
            (1000 / (Js.ofNat (Config.symbolsPerReel config) * Config.spinningSpeed config))
            0)
    false None false (k + length) [].

(** [updateSymbolPosition]; [k] counts the calls of [Math.random()]. *)
Definition updateSymbolPosition (r : Reel) (s : ReelSymbol) (k : nat)
    : ReelSymbol * nat :=
  let movementY := if directionIsDown r then symbolHeight r else - symbolHeight r in
  let s1 := ReelSymbol.setY (y s + movementY) s in
  let hasMovedOffscreen :=
    if directionIsDown r
    then Js.ge (y s1) (reelAreaHeight r - eps)
    else Js.le (y s1) (- symbolHeight r + eps) in
  if hasMovedOffscreen
  then (ReelSymbol.setTexture (getRandomSymbolTexture k)
          (ReelSymbol.setY (if directionIsDown r
                            then - symbolHeight r
                            else reelAreaHeight r) s1), S k)
  else (s1, k).

(** [this.symbols.forEach(this.updateSymbolPosition.bind(this))] *)
Fixpoint loopSymbols (r : Reel) (l : list ReelSymbol) (k : nat) : list ReelSymbol * nat :=
  match l with
  | [] => ([], k)
  | s :: l' =>
      let (s', k1) := updateSymbolPosition r s k in
      let (l'', k2) := loopSymbols r l' k1 in
      (s' :: l'', k2)
  end.

Definition loopReel (w : State) : State :=
  let (l, k) := loopSymbols (reel w) (symbols (reel w)) (randomCalls w) in
  setRandomCalls k (setReel (setSymbols l (reel w)) w).

Definition stopSpinning (w : State) : State :=
  setReel (setNeedsToStop true (reel w)) w.

(** [beginStoppingAnimation] up to its [await]. *)
Definition beginStoppingAnimation (w : State) : State :=
  if stopping (reel w) then w
  else
    setStoppingRunning true
      (setReel (setBackoutStarted false (setStopping true (reel w))) w).

Definition crossedUpperThreshold (r : Reel) : bool :=
  Js.ge (positionY r) (symbolHeight r).

Definition crossedLowerThreshold (r : Reel) : bool :=
  Js.le (positionY r) (- symbolHeight r).

(** The test of the [if] in the back.out tween's [onUpdate]. *)
Definition backoutGuard (r : Reel) : bool :=
  negb (backoutStarted r) && (crossedUpperThreshold r || crossedLowerThreshold r).

(** The body of that [if]; [crossedUpperThreshold] was read before it. *)
Definition backoutCompensation (w : State) : State :=
  let crossedUpper := crossedUpperThreshold (reel w) in
  let w1 := loopReel w in
  let r1 := reel w1 in
  let shift := match movingDirection r1 with
               | UP => symbolHeight r1
               | _ => - symbolHeight r1
               end in
  let l := map (fun s => ReelSymbol.setY (y s + shift) s) (symbols r1) in
  let r2 := setSymbols l r1 in
  setReel (if crossedUpper then setBackoutStarted true r2 else r2) w1.

(** [onUpdate] of the back.out tween. *)
Definition stoppingOnUpdate (w : State) : State :=
  if backoutGuard (reel w) then backoutCompensation w else w.

(** [beginStoppingAnimation] after its [await]. *)
Definition beginStoppingAnimationResume (w : State) : State :=
  let w1 := loopReel w in
  let w2 := setReel (setStopping false (setPositionY 0 (reel w1))) w1 in
  emit stoppedSpinning w2.

(** [startSpinning] up to its [await]. *)
Definition startSpinning (w : State) : State :=
  setEaseInRunning true w.

(** [initialShiftReelDirection] of [startSpinning], [reelStartY] of
    [beginStoppingAnimation]: where both awaited tweens end. *)
Definition reelStartY (r : Reel) : Q :=
  if directionIsDown r then symbolHeight r else - symbolHeight r.

(** Where an [ease: "none"] tween from 0 to
    [symbolHeight * 2 * (DOWN ? 1 : -1)] over [spinningTweenDuration * 2]
    puts [position.y] at time [t]. *)
Definition tweenValue (r : Reel) (t : Q) : Q :=
  symbolHeight r * 2 * (if directionIsDown r then 1 else -1)
  * (t / (spinningTweenDuration r * 2)).

(** [tween.time(t, true)]: move the playhead and render, no callbacks. *)
Definition tweenSeek (t : Q) (w : State) : State :=
  match tween w with
  | None => w
  | Some tw =>
      setTween (Some (mkTween t (paused tw)))
               (setReel (setPositionY (tweenValue (reel w) t) (reel w)) w)
  end.

(** [tween.pause()] *)
Definition tweenPause (w : State) : State :=
  match tween w with
  | None => w
  | Some tw => setTween (Some (mkTween (time tw) true)) w
  end.

(** [onUpdate] of the looping tween. *)
Definition tweenOnUpdate (w : State) : State :=
  match tween w with
  | None => w
  | Some tw =>
      let time := time tw in
      if Js.gt time (spinningTweenDuration (reel w)) then
        let w1 := loopReel w in
        let w2 := tweenSeek (Js.rem time (spinningTweenDuration (reel w1))) w1 in
        if needsToStop (reel w2)
        then beginStoppingAnimation (tweenPause w2)
        else w2
      else w
  end.

(** [startSpinning] after its [await]. *)
Definition startSpinningResume (w : State) : State :=
  let w1 := loopReel w in
  let w2 := setReel (setNeedsToStop false (setPositionY 0 (reel w1))) w1 in
  setTween (Some (mkTween 0 false)) w2.

(** One event of the driver or of the reel area. *)
Definition step (w : State) (e : Event) : State :=
  match e with
  | CallStartSpinning => startSpinning w
  | CallStopSpinning => stopSpinning w
  | EaseInFrame v =>
      if easeInRunning w then setReel (setPositionY v (reel w)) w else w
  | EaseInComplete =>
      if easeInRunning w then
        startSpinningResume
          (setEaseInRunning false
             (setReel (setPositionY (reelStartY (reel w)) (reel w)) w))
      else w
  | LoopFrame t =>
      match tween w with
      | Some tw => if paused tw then w else tweenOnUpdate (tweenSeek t w)
      | None => w
      end
  | StoppingFrame v =>
      if stoppingRunning w
      then stoppingOnUpdate (setReel (setPositionY v (reel w)) w)
      else w
  | StoppingComplete =>
      if stoppingRunning w then
        beginStoppingAnimationResume
          (setStoppingRunning false
             (stoppingOnUpdate
                (setReel (setPositionY (reelStartY (reel w)) (reel w)) w)))
      else w
  end.

Definition run (w : State) (evs : list Event) : State := fold_left step evs w.

(** How often the [if] of the back.out tween's [onUpdate] is entered when
    the driver renders the given values of [position.y], one per frame. *)
Fixpoint backoutFirings (w : State) (frames : list Q) : nat :=
  match frames with
  | [] => 0
  | v :: frames' =>
      let w0 := setReel (setPositionY v (reel w)) w in
      ((if backoutGuard (reel w0) then 1 else 0)
       + backoutFirings (stoppingOnUpdate w0) frames')%nat
  end.

End World.

Definition positions (w : State) : list Q := map y (symbols (reel w)).

Definition textures (w : State) : list (option Texture) :=
  map texture (symbols (reel w)).

(** The wrap test of [updateSymbolPosition] on the symbol [s], as the pass
    finds it. *)
Definition crossed (r : Reel) (s : ReelSymbol) : bool :=
  if directionIsDown r
  then Js.ge (y s + symbolHeight r) (reelAreaHeight r - eps)
  else Js.le (y s + - symbolHeight r) (- symbolHeight r + eps).

(** How many symbols before index [i] a pass wraps. *)
Definition drawsBefore (r : Reel) (l : list ReelSymbol) (i : nat) : nat :=
  length (filter (crossed r) (firstn i l)).

End ReelUpDown.

(** ** Reel.ts, the four-direction draft *)

Module ReelFourWay.

Record Reel := mkReel {
  symbols : list ReelSymbol;
  stopping : bool;
  backoutStarted : bool;
  needsToStop : bool;
  symbolWidth : Q;
  symbolHeight : Q;
  reelAreaWidth : Q;
  reelAreaHeight : Q;
  movingDirection : MovingDirection;
  spinningTweenDuration : Q;
  positionX : Q;                 (* this.position.x *)
  positionY : Q;                 (* this.position.y *)
}.

(** The looping tween: its playhead, and the values of [this.position] it
    interpolates between. *)
Record AxisTween := mkAxisTween {
  time : Q;
  paused : bool;
  fromX : Q;
  fromY : Q;
  toX : Q;
  toY : Q;
}.

Record State := mkState {
  reel : Reel;
  easeIn : option (Q * Q);       (* the ease-in tween in flight, and its target *)
  tween : option AxisTween;      (* the looping tween, once created *)
  randomCalls : nat;             (* calls of Math.random() so far *)
  emitted : list ReelEvents;     (* notifications so far, oldest first *)
}.

Inductive Event :=
| CallStartSpinning (i : nat)  (* reel.startSpinning(i) *)
| CallStopSpinning             (* reel.stopSpinning() *)
| EaseInFrame (vx vy : Q)      (* a frame of the awaited ease-in tween *)
| EaseInComplete               (* its last frame; the await resumes *)
| LoopFrame (t : Q).           (* a frame of [tween], whose time is now [t] *)

Definition setSymbols (v : list ReelSymbol) (r : Reel) : Reel :=
  mkReel v (stopping r) (backoutStarted r) (needsToStop r) (symbolWidth r)
         (symbolHeight r) (reelAreaWidth r) (reelAreaHeight r)
         (movingDirection r) (spinningTweenDuration r) (positionX r) (positionY r).

Definition setNeedsToStop (v : bool) (r : Reel) : Reel :=
  mkReel (symbols r) (stopping r) (backoutStarted r) v (symbolWidth r)
         (symbolHeight r) (reelAreaWidth r) (reelAreaHeight r)
         (movingDirection r) (spinningTweenDuration r) (positionX r) (positionY r).

Definition setPosition (vx vy : Q) (r : Reel) : Reel :=
  mkReel (symbols r) (stopping r) (backoutStarted r) (needsToStop r) (symbolWidth r)
         (symbolHeight r) (reelAreaWidth r) (reelAreaHeight r)
         (movingDirection r) (spinningTweenDuration r) vx vy.

Definition setReel (v : Reel) (w : State) : State :=
  mkState v (easeIn w) (tween w) (randomCalls w) (emitted w).

Definition setEaseIn (v : option (Q * Q)) (w : State) : State :=
  mkState (reel w) v (tween w) (randomCalls w) (emitted w).

Definition setTween (v : option AxisTween) (w : State) : State :=
  mkState (reel w) (easeIn w) v (randomCalls w) (emitted w).

Definition setRandomCalls (v : nat) (w : State) : State :=
  mkState (reel w) (easeIn w) (tween w) v (emitted w).

Definition getReelPosition (r : Reel) : Q * Q :=
  match movingDirection r with
  | DOWN => (positionX r, symbolHeight r)
  | UP => (positionX r, - symbolHeight r)
  | LEFT => (- symbolWidth r, positionY r)
  | RIGHT => (0, positionY r)
  end.

Definition getSpinningReelPosition (r : Reel) : Q * Q :=
  match movingDirection r with
  | DOWN => (positionX r, positionY r + symbolHeight r * 2)
  | UP => (positionX r, positionY r - symbolHeight r * 2)
  | RIGHT => (positionX r + symbolWidth r * 2, positionY r)
  | LEFT => (positionX r - symbolWidth r * 2, positionY r)
  end.

Definition getSymbolMovementDirection (r : Reel) (s : ReelSymbol) : Q * Q :=
  match movingDirection r with
  | DOWN => (x s, symbolHeight r)
  | UP => (x s, - symbolHeight r)
  | LEFT => (- symbolWidth r, 0)
  | RIGHT => (symbolWidth r, 0)
  end.

(** Returns [(xAdjust, yAdjust)]. *)
Definition isSymbolOffScreen (r : Reel) (s : ReelSymbol) (eps : Q) : Q * Q :=
  match movingDirection r with
  | DOWN =>
      if Js.ge (y s) (reelAreaHeight r - eps) then (0, - reelAreaHeight r) else (0, 0)
  | UP =>
      if Js.le (y s) (- symbolHeight r + eps) then (0, reelAreaHeight r) else (0, 0)
  | RIGHT =>
      if Js.ge (x s) (reelAreaWidth r - eps) then (- reelAreaWidth r, 0) else (0, 0)
  | LEFT =>
      if Js.le (x s) (- symbolWidth r + eps)
      then (reelAreaWidth r + symbolWidth r, 0) else (0, 0)
  end.

Section World.

Variable symbolTextures : list Texture.   (* loadedTextures.symbols *)
Variable random : nat -> Q.               (* the k-th Math.random() *)

Definition getRandomSymbolTexture (k : nat) : option Texture :=
  AssetLoader.getRandomSymbolTexture symbolTextures (random k).

Definition newSymbols (w h : Q) (length k : nat) : list ReelSymbol :=
  map (fun j => ReelSymbol.constructor (getRandomSymbolTexture (k + j)) w h)
      (seq 0 length).

(** The [switch] of the constructor, on the symbol at index [i]. *)
Definition placeSymbol (dir : MovingDirection) (w h : Q) (i : nat) (s : ReelSymbol)
    : ReelSymbol :=
  match dir with
  | DOWN => ReelSymbol.setX 0 (ReelSymbol.setY ((Js.ofNat i - 1) * h) s)
  | UP => ReelSymbol.setX 0 (ReelSymbol.setY (Js.ofNat i * h) s)
  | LEFT => ReelSymbol.setY 0 (ReelSymbol.setX (Js.ofNat i * w) s)
  | RIGHT => ReelSymbol.setY 0 (ReelSymbol.setX ((Js.ofNat i - 1) * w) s)
  end.

Definition constructor (config : Config.GameConfig) (k : nat) : State :=
  let symbolWidth := Config.reelAreaWidth config / Js.ofNat (Config.reelsCount config) in
  let symbolHeight :=
    Config.reelAreaHeight config / Js.ofNat (Config.symbolsPerReel config) in
  let length := (Config.symbolsPerReel config + 1)%nat in
  let l := newSymbols symbolWidth symbolHeight length k in
  mkState
    (mkReel (map (fun p => placeSymbol (Config.movingDirection config)
                             symbolWidth symbolHeight (fst p) (snd p))
                 (combine (seq 0 (List.length l)) l))
            false false false
            symbolWidth symbolHeight
            (Config.reelAreaWidth config) (Config.reelAreaHeight config)
            (Config.movingDirection config)
            (1000 / (Js.ofNat (Config.symbolsPerReel config) * Config.spinningSpeed config))
            0 0)
    None None (k + length) [].

(** [shiftSymbolPosition]; [k] counts the calls of [Math.random()]. *)
Definition shiftSymbolPosition (r : Reel) (s : ReelSymbol) (k : nat)
    : ReelSymbol * nat :=
  let (dx, dy) := getSymbolMovementDirection r s in
  let s1 := ReelSymbol.setY (y s + dy) s in
  let s2 := ReelSymbol.setX (x s1 + dx) s1 in
  let (xAdjust, yAdjust) := isSymbolOffScreen r s2 eps in
  if (Js.neq xAdjust 0 || Js.neq yAdjust 0)%bool then
    let s3 := ReelSymbol.setTexture (getRandomSymbolTexture k) s2 in
    let s4 := ReelSymbol.setX (x s3 + xAdjust) s3 in
    (ReelSymbol.setY (y s4 + yAdjust) s4, S k)
  else (s2, k).

Fixpoint loopSymbols (r : Reel) (l : list ReelSymbol) (k : nat) : list ReelSymbol * nat :=
  match l with
  | [] => ([], k)
  | s :: l' =>
      let (s', k1) := shiftSymbolPosition r s k in
      let (l'', k2) := loopSymbols r l' k1 in
      (s' :: l'', k2)
  end.

Definition loopReel (w : State) : State :=
  let (l, k) := loopSymbols (reel w) (symbols (reel w)) (randomCalls w) in
  setRandomCalls k (setReel (setSymbols l (reel w)) w).

Definition stopSpinning (w : State) : State :=
  setReel (setNeedsToStop true (reel w)) w.

(** [beginStoppingAnimation]: its first statement is [return;], nothing
    after it runs. *)
Definition beginStoppingAnimation (w : State) : State := w.

(** [startSpinning(i)] up to its [await]; [i] is not used. *)
Definition startSpinning (i : nat) (w : State) : State :=
  setEaseIn (Some (getReelPosition (reel w))) w.

(** Where an [ease: "none"] tween of duration [spinningTweenDuration * 2]
    puts a coordinate at time [t]. *)
Definition tweenValue (r : Reel) (from to t : Q) : Q :=
  from + (to - from) * (t / (spinningTweenDuration r * 2)).

(** [tween.time(t, true)] *)
Definition tweenSeek (t : Q) (w : State) : State :=
  match tween w with
  | None => w
  | Some tw =>
      setTween (Some (mkAxisTween t (paused tw) (fromX tw) (fromY tw) (toX tw) (toY tw)))
        (setReel (setPosition (tweenValue (reel w) (fromX tw) (toX tw) t)
                              (tweenValue (reel w) (fromY tw) (toY tw) t)
                              (reel w)) w)
  end.

(** [tween.pause()] *)
Definition tweenPause (w : State) : State :=
  match tween w with
  | None => w
  | Some tw =>
      setTween (Some (mkAxisTween (time tw) true (fromX tw) (fromY tw) (toX tw) (toY tw))) w
  end.

(** [onUpdate] of the looping tween. *)
Definition tweenOnUpdate (w : State) : State :=
  match tween w with
  | None => w
  | Some tw =>
      let time := time tw in
      if Js.gt time (spinningTweenDuration (reel w)) then
        let w1 := loopReel w in
        let w2 := tweenSeek (Js.rem time (spinningTweenDuration (reel w1))) w1 in
        if needsToStop (reel w2)
        then beginStoppingAnimation (tweenPause w2)
        else w2
      else w
  end.

(** [startSpinning] after its [await]. *)
Definition startSpinningResume (w : State) : State :=
  let w1 := loopReel w in
  let w2 := setReel (setNeedsToStop false (reel w1)) w1 in
  let (tweenX, tweenY) := getSpinningReelPosition (reel w2) in
  setTween (Some (mkAxisTween 0 false (positionX (reel w2)) (positionY (reel w2))
                              tweenX tweenY)) w2.

Definition step (w : State) (e : Event) : State :=
  match e with
  | CallStartSpinning i => startSpinning i w
  | CallStopSpinning => stopSpinning w
  | EaseInFrame vx vy =>
      match easeIn w with
      | Some _ => setReel (setPosition vx vy (reel w)) w
      | None => w
      end
  | EaseInComplete =>
      match easeIn w with
      | Some (tx, ty) =>
          startSpinningResume (setEaseIn None (setReel (setPosition tx ty (reel w)) w))
      | None => w
      end
  | LoopFrame t =>
      match tween w with
      | Some tw => if paused tw then w else tweenOnUpdate (tweenSeek t w)
      | None => w
      end
  end.

Definition run (w : State) (evs : list Event) : State := fold_left step evs w.

(** [beginStoppingAnimation] called [n] times in a row. *)
Fixpoint beginStoppingAnimationTimes (n : nat) (w : State) : State :=
  match n with
  | O => w
  | S n' => beginStoppingAnimationTimes n' (beginStoppingAnimation w)
  end.

End World.

End ReelFourWay.

(** ** Consecutive passes of [loopReel] on the downward-only reel *)

Module Passes.

(** The wrap test of [loopReel], on the position the pass finds. *)
Definition wrapTest (r : Reel.Reel) (p : Q) : bool :=
  Js.ge (p + Reel.symbolHeight r) (Reel.reelAreaHeight r - eps).

(** Where [k] passes take a symbol from [p]. *)
Fixpoint after (r : Reel.Reel) (k : nat) (p : Q) : Q :=
  match k with
  | O => p
  | S k' => after r k' (Reel.advance r p)
  end.

(** How many of [k] passes wrap, and give a new texture to, a symbol that
    starts at [p]. *)
Fixpoint wraps (r : Reel.Reel) (k : nat) (p : Q) : nat :=
  match k with
  | O => 0
  | S k' => ((if wrapTest r p then 1 else 0) + wraps r k' (Reel.advance r p))%nat
  end.

Section World.

Variable symbolTextures : list Texture.
Variable random : nat -> Q.

(** [loopReel] called [k] times in a row. *)
Fixpoint passes (k : nat) (w : Reel.State) : Reel.State :=
  match k with
  | O => w
  | S k' => passes k' (Reel.loopReel symbolTextures random w)
  end.

End World.

End Passes.

(** ** Where the symbols of the up/down reel rest *)

Module UpDownGrid.


(** The read-only fields the motion depends on. *)
Definition dims (r : ReelUpDown.Reel) : MovingDirection * Q * Q * Q :=
  (ReelUpDown.movingDirection r, ReelUpDown.symbolHeight r,
   ReelUpDown.reelAreaHeight r, ReelUpDown.spinningTweenDuration r).

(** Where one [loopReel] pass puts a symbol that was at [p]. *)
Definition advance (r : ReelUpDown.Reel) (p : Q) : Q :=
  if ReelUpDown.directionIsDown r then
    if Js.ge (p + ReelUpDown.symbolHeight r) (ReelUpDown.reelAreaHeight r - eps)
    then - ReelUpDown.symbolHeight r
    else p + ReelUpDown.symbolHeight r
  else
    if Js.le (p + - ReelUpDown.symbolHeight r) (- ReelUpDown.symbolHeight r + eps)
    then ReelUpDown.reelAreaHeight r
    else p + - ReelUpDown.symbolHeight r.

(** The offsets the constructor gives the [n + 1] symbols: from [-h] when
    moving down, from 0 otherwise. *)
Definition restingOffsets (r : ReelUpDown.Reel) (n : nat) : list Q :=
  map (fun i => (if ReelUpDown.directionIsDown r then Js.ofNat i - 1 else Js.ofNat i)
                * ReelUpDown.symbolHeight r)
      (seq 0 (n + 1)).

(** The [shift] of the compensation in the back.out tween's [onUpdate]. *)
Definition shift (r : ReelUpDown.Reel) : Q :=
  match ReelUpDown.movingDirection r with
  | UP => ReelUpDown.symbolHeight r
  | _ => - ReelUpDown.symbolHeight r
  end.

Definition geometry (n : nat) (r : ReelUpDown.Reel) : Prop :=
  ReelUpDown.reelAreaHeight r == Js.ofNat n * ReelUpDown.symbolHeight r
  /\ eps < ReelUpDown.symbolHeight r.

Definition atGrid (n : nat) (r0 : ReelUpDown.Reel) (w : ReelUpDown.State) : Prop :=
  PermutationA Qeq (ReelUpDown.positions w) (restingOffsets r0 n).

Definition atGridShifted (n : nat) (r0 : ReelUpDown.Reel) (w : ReelUpDown.State)
    : Prop :=
  PermutationA Qeq (ReelUpDown.positions w)
                   (map (fun p => p + shift r0) (restingOffsets r0 n)).

(** The three phases of a spin of a reel whose read-only fields are those
    of [r0]. *)
Definition easeInPhase (n : nat) (r0 : ReelUpDown.Reel) (e0 : list ReelEvents)
    (w : ReelUpDown.State) : Prop :=
  dims (ReelUpDown.reel w) = dims r0 /\ atGrid n r0 w
  /\ ReelUpDown.easeInRunning w = true
  /\ ReelUpDown.stopping (ReelUpDown.reel w) = false
  /\ ReelUpDown.stoppingRunning w = false
  /\ ReelUpDown.emitted w = e0.

Definition loopPhase (n : nat) (r0 : ReelUpDown.Reel) (e0 : list ReelEvents)
    (w : ReelUpDown.State) : Prop :=
  dims (ReelUpDown.reel w) = dims r0 /\ atGrid n r0 w
  /\ ReelUpDown.stoppingRunning w = ReelUpDown.stopping (ReelUpDown.reel w)
  /\ ReelUpDown.emitted w = e0
  /\ (exists tw, ReelUpDown.tween w = Some tw
                 /\ paused tw = ReelUpDown.stopping (ReelUpDown.reel w))
  /\ (ReelUpDown.stopping (ReelUpDown.reel w) = true ->
      ReelUpDown.backoutStarted (ReelUpDown.reel w) = false).

(** While stopping the symbols are on the resting offsets or, once the
    compensation has run, one [shift] away from them. *)
Definition stopPhase (n : nat) (r0 : ReelUpDown.Reel) (e0 : list ReelEvents)
    (w : ReelUpDown.State) : Prop :=
  dims (ReelUpDown.reel w) = dims r0
  /\ ReelUpDown.stopping (ReelUpDown.reel w) = true
  /\ ReelUpDown.stoppingRunning w = true
  /\ ReelUpDown.emitted w = e0
  /\ (atGrid n r0 w \/ atGridShifted n r0 w)
  /\ (ReelUpDown.backoutStarted (ReelUpDown.reel w) = true -> atGridShifted n r0 w).

End UpDownGrid.

(** ** Consecutive passes of [loopReel] on the four-direction reel *)

Module FourWayPasses.

Section World.

Variable symbolTextures : list Texture.
Variable random : nat -> Q.

(** [loopReel] called [k] times in a row. *)
Fixpoint passes (k : nat) (w : ReelFourWay.State) : ReelFourWay.State :=
  match k with
  | O => w
  | S k' => passes k' (ReelFourWay.loopReel symbolTextures random w)
  end.

End World.


End FourWayPasses.

(** ** AssetLoader.ts, the class: the singleton and its loaded textures *)

Module AssetLoaderClass.

Inductive Error :=
| Singleton                  (* "AssetLoader is a singleton" *)
| SymbolTexturesNotLoaded    (* "Symbol textures not loaded yet" *)
| TexturesNotLoaded.         (* "Textures not loaded yet" *)

(** The keys of [gameConfig.assets]. *)
Inductive AssetName := symbolsName | spinButtonName | stopButtonName.

(** What [loadedTextures] holds under a key: [Texture[]] for an array of
    paths, [Texture] for one path. *)
Inductive Loaded :=
| Textures (l : list Texture)
| OneTexture (t : Texture).

Section Assets.

Variable AssetPath : Type.
(** What [Assets.load(path)] resolves to. *)
Variable assetsLoad : AssetPath -> Texture.

(** [gameConfig.assets] *)
Record AssetsConfig := mkAssetsConfig {
  symbols : list AssetPath;
  spinButton : AssetPath;
  stopButton : AssetPath;
}.

Record LoadedTextures := mkLoadedTextures {
  loadedSymbols : list Texture;
  loadedSpinButton : Texture;
  loadedStopButton : Texture;
}.

(** An [AssetLoader] object. *)
Record Instance := mkInstance {
  loadedTextures : option LoadedTextures;
}.

(** The static field [AssetLoader.instance]; the object it refers to is
    the only one there is, so its state is kept here. *)
Definition Static := option Instance.

(** [new AssetLoader()]: the new object, and the static field set to it. *)
Definition constructor (st : Static) : Error + (Instance * Static) :=
  match st with
  | Some _ => inl Singleton
  | None => let this := mkInstance None in inr (this, Some this)
  end.

Definition getInstance (st : Static) : Error + (Instance * Static) :=
  match st with
  | None => constructor st
  | Some i => inr (i, st)
  end.

(** [load], once every [Assets.load] has resolved. *)
Definition load (assets : AssetsConfig) (this : Instance) : Instance :=
  mkInstance
    (Some (mkLoadedTextures (map assetsLoad (symbols assets))
                            (assetsLoad (spinButton assets))
                            (assetsLoad (stopButton assets)))).

(** [u] is the value of [Math.random()]. *)
Definition getRandomSymbolTexture (u : Q) (this : Instance) : Error + option Texture :=
  match loadedTextures this with
  | None => inl SymbolTexturesNotLoaded
  | Some lt => inr (AssetLoader.getRandomSymbolTexture (loadedSymbols lt) u)
  end.

Definition getTexture (name : AssetName) (this : Instance) : Error + Loaded :=
  match loadedTextures this with
  | None => inl TexturesNotLoaded
  | Some lt =>
      inr (match name with
           | symbolsName => Textures (loadedSymbols lt)
           | spinButtonName => OneTexture (loadedSpinButton lt)
           | stopButtonName => OneTexture (loadedStopButton lt)
           end)
  end.

(** [await AssetLoader.getInstance().load(gameConfig)]: the object the
    static field refers to is the one that is loaded. *)
Definition getInstanceLoad (assets : AssetsConfig) (st : Static) : Error + Static :=
  match getInstance st with
  | inl e => inl e
  | inr (this, _) => inr (Some (load assets this))
  end.

(** [AssetLoader.getInstance().getRandomSymbolTexture()] *)
Definition getInstanceGetRandomSymbolTexture (u : Q) (st : Static)
    : Error + (option Texture * Static) :=
  match getInstance st with
  | inl e => inl e
  | inr (this, st') =>
      match getRandomSymbolTexture u this with
      | inl e => inl e
      | inr t => inr (t, st')
      end
  end.

(** [AssetLoader.getInstance().getTexture(name)] *)
Definition getInstanceGetTexture (name : AssetName) (st : Static)
    : Error + (Loaded * Static) :=
  match getInstance st with
  | inl e => inl e
  | inr (this, st') =>
      match getTexture name this with
      | inl e => inl e
      | inr t => inr (t, st')
      end
  end.

End Assets.

End AssetLoaderClass.
(** ** ReelArea.ts *)

Module ReelArea.

Inductive ReelAreaEvents := allStartedSpinning | allStoppedSpinning.

(** The closures handed to [gsap.delayedCall]. *)
Inductive Callback :=
| StartReel (i : nat)   (* reel.startSpinning(); if (i === length - 1) emit *)
| StopReel (i : nat).   (* reel.stopSpinning(); *)

(** The thrown [Error]: the three quantities interpolated in its message
    [Invalid config: reels start after stop delay (n*startInterval > stopDelay)]. *)
Inductive Error :=
| InvalidConfig (reelsLength : nat) (startInterval stopDelay : Q).

Section WithReel.

(** The reel class the area is linked with. *)
Variable Reel : Type.
Variable newReel : Config.GameConfig -> nat -> Reel.
Variable reelStartSpinning : Reel -> Reel.
Variable reelStopSpinning : Reel -> Reel.

Record ReelArea := mkReelArea {
  reels : list Reel;
  reelsFinishedSpinningCount : nat;
  stopDelay : Q;
  stopInterval : Q;
  startInterval : Q;
  (* the driver's pending delayed calls, in registration order *)
  delayedCalls : list (Q * Callback);
  (* the notifications emitted so far, oldest first *)
  emitted : list ReelAreaEvents;
}.

Definition constructor (config : Config.GameConfig) : ReelArea :=
  mkReelArea (map (newReel config) (seq 0 (Config.reelsCount config)))
             0
             (Config.stopDelay config) (Config.stopInterval config)
             (Config.startInterval config)
             [] [].

Definition emit (e : ReelAreaEvents) (a : ReelArea) : ReelArea :=
  mkReelArea (reels a) (reelsFinishedSpinningCount a)
             (stopDelay a) (stopInterval a) (startInterval a)
             (delayedCalls a) (emitted a ++ [e]).

Definition delayedCall (delay : Q) (cb : Callback) (a : ReelArea) : ReelArea :=
  mkReelArea (reels a) (reelsFinishedSpinningCount a)
             (stopDelay a) (stopInterval a) (startInterval a)
             (delayedCalls a ++ [(delay, cb)]) (emitted a).

Definition setCount (n : nat) (a : ReelArea) : ReelArea :=
  mkReelArea (reels a) n
             (stopDelay a) (stopInterval a) (startInterval a)
             (delayedCalls a) (emitted a).

Definition setReels (rs : list Reel) (a : ReelArea) : ReelArea :=
  mkReelArea rs (reelsFinishedSpinningCount a)
             (stopDelay a) (stopInterval a) (startInterval a)
             (delayedCalls a) (emitted a).

(** Apply a method to the reel at index [i]. *)
Fixpoint onReel (f : Reel -> Reel) (i : nat) (rs : list Reel) : list Reel :=
  match rs, i with
  | [], _ => []
  | r :: rs', O => f r :: rs'
  | r :: rs', S i' => r :: onReel f i' rs'
  end.

(** The handler the constructor registers on every reel's
    [stoppedSpinning]. *)
Definition onReelStoppedSpinning (a : ReelArea) : ReelArea :=
  let a1 := setCount (S (reelsFinishedSpinningCount a)) a in
  if Nat.eqb (reelsFinishedSpinningCount a1) (length (reels a1))
  then emit allStoppedSpinning a1
  else a1.

(** The two scheduling loops of [startSpinning]. *)
Definition scheduleStarts (a : ReelArea) : ReelArea :=
  fold_left
    (fun acc i => delayedCall (Js.ofNat i * startInterval a) (StartReel i) acc)
    (seq 0 (length (reels a))) a.

Definition scheduleStops (a : ReelArea) : ReelArea :=
  fold_left
    (fun acc i =>
       delayedCall (stopDelay a + Js.ofNat i * stopInterval a) (StopReel i) acc)
    (seq 0 (length (reels a))) a.

Definition startSpinning (a : ReelArea) : Error + ReelArea :=
  if Js.gt (Js.ofNat (length (reels a)) * startInterval a) (stopDelay a)
  then inl (InvalidConfig (length (reels a)) (startInterval a) (stopDelay a))
  else
    let a1 := setCount 0 a in
    let a2 := scheduleStarts a1 in
    inr (scheduleStops a2).

Definition stopSpinning (a : ReelArea) : ReelArea :=
  setReels (map reelStopSpinning (reels a)) a.

(** The driver fires one delayed call. *)
Definition fire (cb : Callback) (a : ReelArea) : ReelArea :=
  match cb with
  | StartReel i =>
      let a1 := setReels (onReel reelStartSpinning i (reels a)) a in
      if Z.eqb (Z.of_nat i) (Z.of_nat (length (reels a1)) - 1)
      then emit allStartedSpinning a1
      else a1
  | StopReel i =>
      setReels (onReel reelStopSpinning i (reels a)) a
  end.

(** What happens to the area after [startSpinning]: the driver fires a
    delayed call, or a reel emits [stoppedSpinning]. *)
Inductive AreaEvent :=
| Fire (cb : Callback)
| ReelStopped.

Definition areaStep (a : ReelArea) (e : AreaEvent) : ReelArea :=
  match e with
  | Fire cb => fire cb a
  | ReelStopped => onReelStoppedSpinning a
  end.

Definition areaRun (a : ReelArea) (evs : list AreaEvent) : ReelArea :=
  fold_left areaStep evs a.

Definition isReelStopped (e : AreaEvent) : bool :=
  match e with ReelStopped => true | Fire _ => false end.



(** The delayed calls one [startSpinning] registers: the first loop's, then
    the second loop's. *)
Definition schedule (a : ReelArea) : list (Q * Callback) :=
  map (fun i => (Js.ofNat i * startInterval a, StartReel i))
      (seq 0 (length (reels a)))
  ++ map (fun i => (stopDelay a + Js.ofNat i * stopInterval a, StopReel i))
         (seq 0 (length (reels a))).


(** How many reels report [stoppedSpinning] in a run. *)
Definition stops (evs : list AreaEvent) : nat :=
  length (filter isReelStopped evs).

Definition countEvent (e : ReelAreaEvents) (l : list ReelAreaEvents) : nat :=
  length (filter (fun x => match x, e with
                          | allStartedSpinning, allStartedSpinning => true
                          | allStoppedSpinning, allStoppedSpinning => true
                          | _, _ => false
                          end) l).

End WithReel.

Arguments mkReelArea {Reel}.
Arguments reels {Reel}.
Arguments reelsFinishedSpinningCount {Reel}.
Arguments stopDelay {Reel}.
Arguments stopInterval {Reel}.
Arguments startInterval {Reel}.
Arguments delayedCalls {Reel}.
Arguments emitted {Reel}.
Arguments constructor {Reel}.
Arguments emit {Reel}.
Arguments delayedCall {Reel}.
Arguments setCount {Reel}.
Arguments setReels {Reel}.
Arguments onReel {Reel}.
Arguments onReelStoppedSpinning {Reel}.
Arguments scheduleStarts {Reel}.
Arguments scheduleStops {Reel}.
Arguments startSpinning {Reel}.
Arguments stopSpinning {Reel}.
Arguments fire {Reel}.
Arguments areaStep {Reel}.
Arguments areaRun {Reel}.
Arguments schedule {Reel}.

End ReelArea.



(** ** Game.ts: the area linked with the downward-only reel *)

Module Game.

(** [new Reel(config)] for the reel at index [i]: the reels are built one
    after the other, each drawing [symbolsPerReel + 1] textures. *)
Definition newReel (symbolTextures : list Texture) (random : nat -> Q)
    (config : Config.GameConfig) (i : nat) : Reel.State :=
  Reel.constructor symbolTextures random config
                   (i * (Config.symbolsPerReel config + 1)).

Definition reelArea (symbolTextures : list Texture) (random : nat -> Q)
    (config : Config.GameConfig) : ReelArea.ReelArea Reel.State :=
  ReelArea.constructor (newReel symbolTextures random) config.

End Game.

(** ** Button.ts and Game.ts: the two buttons and their wiring *)

Inductive EventMode := staticMode | noneMode.   (* "static" | "none" *)

(** A [Button], as far as the game reads and writes it; its texture,
    cursor and geometry are left out. *)
Record Button := mkButton {
  disabled : bool;
  eventMode : EventMode;
  alpha : Q;
  visible : bool;
}.

Module Button.

Definition constructor : Button := mkButton false staticMode 1 true.

Definition setDisabled (d : bool) (b : Button) : Button :=
  mkButton d (if d then noneMode else staticMode) (if d then 1 # 2 else 1) (visible b).

Definition enable (b : Button) : Button := setDisabled false b.

Definition disable (b : Button) : Button := setDisabled true b.

Definition setVisible (v : bool) (b : Button) : Button :=
  mkButton (disabled b) (eventMode b) (alpha b) v.

(** Whether the renderer delivers a click to the button: it has to be
    visible and its [eventMode] must not be ["none"]. *)
Definition interactive (b : Button) : bool :=
  visible b && match eventMode b with staticMode => true | noneMode => false end.

End Button.

Module GameUi.

Inductive UiEvent :=
| ClickSpin
| ClickStop
| Area (e : ReelArea.AreaEvent).

Section WithReel.

Variable Reel : Type.
Variable newReel : Config.GameConfig -> nat -> Reel.
Variable reelStartSpinning : Reel -> Reel.
Variable reelStopSpinning : Reel -> Reel.

Record Game := mkGame {
  reelArea : ReelArea.ReelArea Reel;
  spinButton : Button;
  stopButton : Button;
}.

Definition showSpinButton (g : Game) : Game :=
  mkGame (reelArea g) (Button.setVisible true (spinButton g))
         (Button.setVisible false (stopButton g)).

Definition showStopButton (g : Game) : Game :=
  mkGame (reelArea g) (Button.setVisible false (spinButton g))
         (Button.setVisible true (stopButton g)).

Definition constructor (config : Config.GameConfig) : Game :=
  mkGame (ReelArea.constructor newReel config)
         Button.constructor
         (Button.setVisible false Button.constructor).

(** [this.spinButton.on("click", ...)]; a throw of [startSpinning] leaves
    the handler before it has touched a button. *)
Definition onSpinClick (g : Game) : ReelArea.Error + Game :=
  match ReelArea.startSpinning (reelArea g) with
  | inl e => inl e
  | inr a =>
      let g1 := showStopButton (mkGame a (spinButton g) (stopButton g)) in
      inr (mkGame (reelArea g1) (spinButton g1) (Button.disable (stopButton g1)))
  end.

(** [this.stopButton.on("click", ...)] *)
Definition onStopClick (g : Game) : Game :=
  let a := ReelArea.stopSpinning reelStopSpinning (reelArea g) in
  let g1 := showSpinButton (mkGame a (spinButton g) (stopButton g)) in
  mkGame (reelArea g1) (Button.disable (spinButton g1)) (stopButton g1).

(** [reelArea.on(ReelAreaEvents.allStoppedSpinning, ...)] *)
Definition onAllStoppedSpinning (g : Game) : Game :=
  let g1 := showSpinButton g in
  mkGame (reelArea g1) (Button.enable (spinButton g1)) (stopButton g1).

(** [reelArea.on(ReelAreaEvents.allStartedSpinning, ...)] *)
Definition onAllStartedSpinning (g : Game) : Game :=
  mkGame (reelArea g) (spinButton g) (Button.enable (stopButton g)).

Definition notify (g : Game) (e : ReelArea.ReelAreaEvents) : Game :=
  match e with
  | ReelArea.allStartedSpinning => onAllStartedSpinning g
  | ReelArea.allStoppedSpinning => onAllStoppedSpinning g
  end.

(** One event: a click, delivered only to an interactive button, or an
    event of the reel area, whose new notifications reach the game's
    listeners in the order they were emitted. *)
Definition step (g : Game) (e : UiEvent) : Game :=
  match e with
  | ClickSpin =>
      if Button.interactive (spinButton g) then
        match onSpinClick g with
        | inl _ => g
        | inr g' => g'
        end
      else g
  | ClickStop =>
      if Button.interactive (stopButton g) then onStopClick g else g
  | Area ev =>
      let a := ReelArea.areaStep reelStartSpinning reelStopSpinning (reelArea g) ev in
      let new := skipn (length (ReelArea.emitted (reelArea g))) (ReelArea.emitted a) in
      fold_left notify new (mkGame a (spinButton g) (stopButton g))
  end.

Definition run (g : Game) (evs : list UiEvent) : Game := fold_left step evs g.

(** The state a button's [setDisabled] keeps its fields in. *)
Definition consistent (b : Button) : Prop :=
  eventMode b = (if disabled b then noneMode else staticMode)
  /\ alpha b = (if disabled b then 1 # 2 else 1).

(** The invariant of the two buttons. *)
Definition buttonsOk (g : Game) : Prop :=
  xorb (visible (spinButton g)) (visible (stopButton g)) = true
  /\ consistent (spinButton g) /\ consistent (stopButton g).

(** How often the area has emitted [allStoppedSpinning]. *)
Definition allStopped (g : Game) : nat :=
  ReelArea.countEvent ReelArea.allStoppedSpinning (ReelArea.emitted (reelArea g)).

(** How often the area has emitted [allStartedSpinning]. *)
Definition allStarted (g : Game) : nat :=
  ReelArea.countEvent ReelArea.allStartedSpinning (ReelArea.emitted (reelArea g)).

End WithReel.

Arguments reelArea {Reel}.
Arguments spinButton {Reel}.
Arguments stopButton {Reel}.
Arguments allStopped {Reel}.
Arguments buttonsOk {Reel}.
Arguments allStarted {Reel}.

End GameUi.

(** ** Concrete configurations used in examples *)

Module Examples.

Definition textures : list Texture := [0; 1; 2]%nat.

(** [Math.random()] returning 0, 1/3, 2/3, 0, ... *)
Definition random (k : nat) : Q := Js.ofNat (k mod 3) / 3.

(** [gameConfig] with three reels and a start interval of 100 ms. *)
Definition config3 : Config.GameConfig :=
  Config.mkGameConfig 3 4 800 400 3 4000 400 100 DOWN.

Definition area3 : ReelArea.ReelArea Reel.State :=
  Game.reelArea textures random config3.



(** The hard-coded configuration, and the same with a stop delay of 1500. *)
Definition area4000 : ReelArea.ReelArea Reel.State :=
  Game.reelArea textures random (Config.gameConfig DOWN).

Definition area1500 : ReelArea.ReelArea Reel.State :=
  Game.reelArea textures random
    (Config.mkGameConfig 6 4 800 400 3 1500 400 400 DOWN).

(** One spin cycle of three reels: every delayed call fires, every reel
    reports that it stopped. *)
Definition cycle3 : list ReelArea.AreaEvent :=
  [ReelArea.Fire (ReelArea.StartReel 0); ReelArea.Fire (ReelArea.StartReel 1);
   ReelArea.Fire (ReelArea.StartReel 2); ReelArea.Fire (ReelArea.StopReel 0);
   ReelArea.ReelStopped; ReelArea.Fire (ReelArea.StopReel 1);
   ReelArea.ReelStopped; ReelArea.Fire (ReelArea.StopReel 2);
   ReelArea.ReelStopped].

(** A reel of the hard-coded configuration, and one spin of it: a stop
    request during the ease-in, one while looping, a wrap, the stop. *)
Definition reel0 : Reel.State :=
  Reel.constructor textures random (Config.gameConfig DOWN) 0.

Definition easeIn0 : list Event := [EaseInFrame 50; CallStopSpinning].



(** The same reel, spun up, with a stop requested while it loops. *)
Definition latched0 : Reel.State :=
  Reel.run textures random reel0
    [CallStartSpinning; EaseInComplete; CallStopSpinning].

Definition freeLoops0 : list Event :=
  [LoopFrame 50; LoopFrame 100; LoopFrame 120].




(** An upward reel of the hard-coded configuration, brought to the point
    where its stopping animation has just begun, and the frames of a
    back.out tween that overshoots the target [-100] and settles on it. *)
Definition reelUp : ReelUpDown.State :=
  ReelUpDown.run textures random
    (ReelUpDown.constructor textures random (Config.gameConfig UP) 0)
    [CallStartSpinning; EaseInComplete; CallStopSpinning; LoopFrame 100].

Definition overshootUp : list Q := [-50; -104; -107; -103; -100].

(** A four-direction reel of the hard-coded configuration, spun up and
    asked to stop; the frames the driver goes on to deliver. *)
Definition reelFourWay : ReelFourWay.State :=
  ReelFourWay.constructor textures random (Config.gameConfig DOWN) 0.

Definition spinAndStop : list ReelFourWay.Event :=
  [ReelFourWay.CallStartSpinning 0; ReelFourWay.EaseInComplete;
   ReelFourWay.CallStopSpinning; ReelFourWay.LoopFrame 100].

Definition laterFrames : list ReelFourWay.Event :=
  [ReelFourWay.LoopFrame 120; ReelFourWay.LoopFrame 140; ReelFourWay.LoopFrame 160].

End Examples.

(** ** A game of three reels, for examples *)

Module GameExamples.

Definition game3 : GameUi.Game Reel.State :=
  GameUi.constructor Reel.State (Game.newReel Examples.textures Examples.random)
                     Examples.config3.

(** After the spin click: two start commands go out, the player clicks
    both buttons, the last start command goes out, the player clicks the
    stop button and then the spin button. *)
Definition clicks3 : list GameUi.UiEvent :=
  [GameUi.Area (ReelArea.Fire (ReelArea.StartReel 0));
   GameUi.Area (ReelArea.Fire (ReelArea.StartReel 1));
   GameUi.ClickSpin; GameUi.ClickStop;
   GameUi.Area (ReelArea.Fire (ReelArea.StartReel 2));
   GameUi.ClickStop; GameUi.ClickSpin].

(** The same without the last start command. *)
Definition earlyClicks3 : list GameUi.UiEvent :=
  [GameUi.Area (ReelArea.Fire (ReelArea.StartReel 0));
   GameUi.Area (ReelArea.Fire (ReelArea.StartReel 1));
   GameUi.ClickSpin; GameUi.ClickStop; GameUi.Area ReelArea.ReelStopped].

End GameExamples.

(** ** An upward reel at rest, and one spin of it *)

Module UpExamples.




End UpExamples.

(** * Facts *)

(** ** JavaScript numbers *)

Module JsFacts.

Lemma gt_spec a b : Js.gt a b = true <-> b < a.
Proof.
  unfold Js.gt. rewrite negb_true_iff, <- not_true_iff_false, Qle_bool_iff.
  split; intro H; [apply Qnot_le_lt | apply Qlt_not_le]; exact H.
Qed.

Lemma gt_false a b : Js.gt a b = false <-> a <= b.
Proof.
  unfold Js.gt. rewrite negb_false_iff. apply Qle_bool_iff.
Qed.

Lemma ge_spec a b : Js.ge a b = true <-> b <= a.
Proof. apply Qle_bool_iff. Qed.

Lemma ge_false a b : Js.ge a b = false <-> a < b.
Proof.
  unfold Js.ge. rewrite <- not_true_iff_false, Qle_bool_iff.
  split; intro H; [apply Qnot_le_lt | apply Qlt_not_le]; exact H.
Qed.



Lemma ofNat_S n : Js.ofNat (S n) == Js.ofNat n + 1.
Proof.
  unfold Js.ofNat. rewrite Nat2Z.inj_succ. unfold Z.succ.
  rewrite inject_Z_plus. reflexivity.
Qed.

Lemma ofNat_nonneg n : 0 <= Js.ofNat n.
Proof.
  unfold Js.ofNat. change 0 with (inject_Z 0). rewrite <- Zle_Qle. lia.
Qed.


End JsFacts.

(** ** The downward-only reel *)

Module ReelFacts.

Import Reel.

Section World.

Variable symbolTextures : list Texture.
Variable random : nat -> Q.

Notation loopSymbols := (Reel.loopSymbols symbolTextures random).
Notation loopReel := (Reel.loopReel symbolTextures random).
Notation step := (Reel.step symbolTextures random).
Notation run := (Reel.run symbolTextures random).

Lemma loopSymbols_length r l k : length (fst (loopSymbols r l k)) = length l.
Proof.
  revert k. induction l as [|s l IH]; intro k; simpl; [reflexivity|].
  destruct (loopSymbol symbolTextures random r s k) as [s' k1].
  specialize (IH k1). destruct (loopSymbols r l k1) as [l'' k2].
  simpl in *. congruence.
Qed.

Lemma loopReel_reel w :
  reel (loopReel w) =
  setSymbols (fst (loopSymbols (reel w) (symbols (reel w)) (randomCalls w))) (reel w).
Proof.
  unfold Reel.loopReel. destruct (loopSymbols _ _ _). reflexivity.
Qed.

Lemma loopReel_world w :
  easeInRunning (loopReel w) = easeInRunning w
  /\ tween (loopReel w) = tween w
  /\ stoppingRunning (loopReel w) = stoppingRunning w
  /\ emitted (loopReel w) = emitted w.
Proof.
  unfold Reel.loopReel. destruct (loopSymbols _ _ _). repeat split.
Qed.

Lemma loopReel_length w :
  length (symbols (reel (loopReel w))) = length (symbols (reel w)).
Proof. rewrite loopReel_reel. simpl. apply loopSymbols_length. Qed.

Ltac case_if :=
  match goal with
  | |- context [if ?c then _ else _] => destruct c eqn:?
  | |- context [match ?c with Some _ => _ | None => _ end] => destruct c eqn:?
  end.

Lemma tweenSeek_symbols t w : symbols (reel (tweenSeek t w)) = symbols (reel w).
Proof. unfold tweenSeek. destruct (tween w); reflexivity. Qed.

Lemma tweenPause_reel w : reel (tweenPause w) = reel w.
Proof. unfold tweenPause. destruct (tween w); reflexivity. Qed.

Lemma beginStoppingAnimation_symbols w :
  symbols (reel (beginStoppingAnimation w)) = symbols (reel w).
Proof. unfold beginStoppingAnimation. destruct (stopping (reel w)); reflexivity. Qed.

Lemma tweenOnUpdate_length w :
  length (symbols (reel (Reel.tweenOnUpdate symbolTextures random w))) =
  length (symbols (reel w)).
Proof.
  unfold Reel.tweenOnUpdate. destruct (tween w) as [tw|]; [|reflexivity].
  cbv zeta. destruct (Js.gt _ _); [|reflexivity].
  destruct (needsToStop _).
  - rewrite beginStoppingAnimation_symbols, tweenPause_reel, tweenSeek_symbols.
    apply loopReel_length.
  - rewrite tweenSeek_symbols. apply loopReel_length.
Qed.

Lemma backoutCompensation_length w :
  length (symbols (reel (Reel.backoutCompensation symbolTextures random w))) =
  length (symbols (reel w)).
Proof.
  unfold Reel.backoutCompensation. cbv zeta. simpl.
  rewrite length_map. apply loopReel_length.
Qed.

Lemma stoppingOnUpdate_length w :
  length (symbols (reel (Reel.stoppingOnUpdate symbolTextures random w))) =
  length (symbols (reel w)).
Proof.
  unfold Reel.stoppingOnUpdate. destruct (backoutGuard _); [|reflexivity].
  apply backoutCompensation_length.
Qed.

Lemma beginStoppingAnimationResume_length w :
  length (symbols (reel (Reel.beginStoppingAnimationResume symbolTextures random w))) =
  length (symbols (reel w)).
Proof.
  unfold Reel.beginStoppingAnimationResume. cbv zeta. simpl. apply loopReel_length.
Qed.

Lemma startSpinningResume_length w :
  length (symbols (reel (Reel.startSpinningResume symbolTextures random w))) =
  length (symbols (reel w)).
Proof.
  unfold Reel.startSpinningResume. cbv zeta. simpl. apply loopReel_length.
Qed.

Lemma step_length w e :
  length (symbols (reel (step w e))) = length (symbols (reel w)).
Proof.
  destruct e; simpl.
  - reflexivity.
  - reflexivity.
  - destruct (easeInRunning w); reflexivity.
  - destruct (easeInRunning w); [|reflexivity].
    rewrite startSpinningResume_length. reflexivity.
  - destruct (tween w) as [tw|] eqn:E; [|reflexivity].
    destruct (paused tw); [reflexivity|].
    rewrite tweenOnUpdate_length, tweenSeek_symbols. reflexivity.
  - destruct (stoppingRunning w); [|reflexivity].
    rewrite stoppingOnUpdate_length. reflexivity.
  - destruct (stoppingRunning w); [|reflexivity].
    rewrite beginStoppingAnimationResume_length. simpl.
    rewrite stoppingOnUpdate_length. reflexivity.
Qed.

Lemma run_length evs : forall w,
  length (symbols (reel (run w evs))) = length (symbols (reel w)).
Proof.
  induction evs as [|e evs IH]; intro w; [reflexivity|].
  unfold Reel.run in *. simpl. rewrite IH. apply step_length.
Qed.

Lemma constructor_length config k :
  length (symbols (reel (Reel.constructor symbolTextures random config k))) =
  (Config.symbolsPerReel config + 1)%nat.
Proof.
  simpl. unfold Reel.placeSymbols, Reel.newSymbols.
  rewrite length_map, length_combine, !length_map, !length_seq.
  apply Nat.min_id.
Qed.

(** C8: a reel is built with [symbolsPerReel + 1] symbols and no
    operation, alone or in any sequence of events, changes their number. *)
Theorem symbols_count_invariant config k :
  let w0 := Reel.constructor symbolTextures random config k in
  length (symbols (reel w0)) = (Config.symbolsPerReel config + 1)%nat
  /\ (forall evs,
        length (symbols (reel (run w0 evs))) = (Config.symbolsPerReel config + 1)%nat)
  /\ (forall w,
        length (symbols (reel (startSpinning w))) = length (symbols (reel w))
        /\ length (symbols (reel (Reel.startSpinningResume symbolTextures random w)))
           = length (symbols (reel w))
        /\ length (symbols (reel (loopReel w))) = length (symbols (reel w))
        /\ length (symbols (reel (stopSpinning w))) = length (symbols (reel w))
        /\ length (symbols (reel (beginStoppingAnimation w)))
           = length (symbols (reel w))
        /\ length (symbols (reel (Reel.stoppingOnUpdate symbolTextures random w)))
           = length (symbols (reel w))
        /\ length (symbols (reel (Reel.beginStoppingAnimationResume
                                    symbolTextures random w)))
           = length (symbols (reel w))
        /\ length (symbols (reel (Reel.tweenOnUpdate symbolTextures random w)))
           = length (symbols (reel w))).
Proof.
  cbv zeta. split; [apply constructor_length|]. split.
  - intro evs. rewrite run_length. apply constructor_length.
  - intro w. repeat split.
    + apply startSpinningResume_length.
    + apply loopReel_length.
    + rewrite beginStoppingAnimation_symbols. reflexivity.
    + apply stoppingOnUpdate_length.
    + apply beginStoppingAnimationResume_length.
    + apply tweenOnUpdate_length.
Qed.

(** *** What each operation leaves alone *)

Lemma loopReel_flags w :
  stopping (reel (loopReel w)) = stopping (reel w)
  /\ backoutStarted (reel (loopReel w)) = backoutStarted (reel w)
  /\ needsToStop (reel (loopReel w)) = needsToStop (reel w)
  /\ positionY (reel (loopReel w)) = positionY (reel w)
  /\ symbolHeight (reel (loopReel w)) = symbolHeight (reel w)
  /\ reelAreaHeight (reel (loopReel w)) = reelAreaHeight (reel w)
  /\ spinningTweenDuration (reel (loopReel w)) = spinningTweenDuration (reel w).
Proof. rewrite loopReel_reel. repeat split. Qed.

Lemma stoppingOnUpdate_flags w :
  let w' := Reel.stoppingOnUpdate symbolTextures random w in
  stopping (reel w') = stopping (reel w)
  /\ needsToStop (reel w') = needsToStop (reel w)
  /\ easeInRunning w' = easeInRunning w
  /\ tween w' = tween w
  /\ stoppingRunning w' = stoppingRunning w
  /\ emitted w' = emitted w.
Proof.
  cbv zeta. unfold Reel.stoppingOnUpdate.
  destruct (backoutGuard (reel w)); [|repeat split].
  unfold Reel.backoutCompensation. cbv zeta. simpl.
  destruct (loopReel_flags w) as (-> & _ & -> & _).
  destruct (loopReel_world w) as (-> & -> & -> & ->). repeat split.
Qed.

Lemma startSpinningResume_flags w :
  let w' := Reel.startSpinningResume symbolTextures random w in
  stopping (reel w') = stopping (reel w)
  /\ needsToStop (reel w') = false
  /\ spinningTweenDuration (reel w') = spinningTweenDuration (reel w)
  /\ easeInRunning w' = easeInRunning w
  /\ tween w' = Some (mkTween 0 false)
  /\ stoppingRunning w' = stoppingRunning w
  /\ emitted w' = emitted w.
Proof.
  cbv zeta. unfold Reel.startSpinningResume. cbv zeta. simpl.
  destruct (loopReel_flags w) as (-> & _ & _ & _ & _ & _ & ->).
  destruct (loopReel_world w) as (-> & _ & -> & ->). repeat split.
Qed.

Lemma tweenSeek_flags t w :
  stopping (reel (tweenSeek t w)) = stopping (reel w)
  /\ backoutStarted (reel (tweenSeek t w)) = backoutStarted (reel w)
  /\ needsToStop (reel (tweenSeek t w)) = needsToStop (reel w)
  /\ symbolHeight (reel (tweenSeek t w)) = symbolHeight (reel w)
  /\ reelAreaHeight (reel (tweenSeek t w)) = reelAreaHeight (reel w)
  /\ spinningTweenDuration (reel (tweenSeek t w)) = spinningTweenDuration (reel w).
Proof. unfold tweenSeek. destruct (tween w); repeat split. Qed.

Lemma tweenSeek_world t w :
  easeInRunning (tweenSeek t w) = easeInRunning w
  /\ tween (tweenSeek t w) =
       match tween w with
       | Some tw => Some (mkTween t (paused tw))
       | None => None
       end
  /\ stoppingRunning (tweenSeek t w) = stoppingRunning w
  /\ randomCalls (tweenSeek t w) = randomCalls w
  /\ emitted (tweenSeek t w) = emitted w.
Proof.
  unfold tweenSeek. destruct (tween w) eqn:E; simpl; repeat split; auto.
Qed.

(** A frame of the looping tween, spelled out. *)
Lemma step_LoopFrame w t tw :
  tween w = Some tw -> paused tw = false ->
  step w (LoopFrame t) =
  if Js.gt t (spinningTweenDuration (reel w)) then
    let w2 := tweenSeek (Js.rem t (spinningTweenDuration (reel w)))
                        (loopReel (tweenSeek t w)) in
    if needsToStop (reel w) then beginStoppingAnimation (tweenPause w2) else w2
  else tweenSeek t w.
Proof.
  intros E P. simpl. rewrite E, P.
  unfold Reel.tweenOnUpdate.
  destruct (tweenSeek_world t w) as (_ & Ht & _). rewrite E in Ht. rewrite Ht.
  cbv zeta. cbn [time].
  destruct (tweenSeek_flags t w) as (_ & _ & Hn & _ & _ & Hd). rewrite Hd.
  destruct (Js.gt t (spinningTweenDuration (reel w))); [|reflexivity].
  destruct (loopReel_flags (tweenSeek t w)) as (_ & _ & Hn1 & _ & _ & _ & Hd1).
  rewrite Hd1, Hd.
  destruct (tweenSeek_flags (Js.rem t (spinningTweenDuration (reel w)))
              (loopReel (tweenSeek t w))) as (_ & _ & Hn2 & _).
  rewrite Hn2, Hn1, Hn. reflexivity.
Qed.

Lemma beginStoppingAnimationResume_stopping w :
  stopping (reel (Reel.beginStoppingAnimationResume symbolTextures random w)) = false.
Proof. reflexivity. Qed.

(** No event but a frame of the looping tween turns [stopping] on. *)
Lemma step_stopping_other w e :
  (forall t, e <> LoopFrame t) ->
  stopping (reel w) = false -> stopping (reel (step w e)) = false.
Proof.
  intros He Hs. destruct e; simpl; auto.
  - destruct (easeInRunning w); auto.
  - destruct (easeInRunning w); auto.
    match goal with |- context [Reel.startSpinningResume _ _ ?x] =>
      destruct (startSpinningResume_flags x) as (-> & _) end. exact Hs.
  - exfalso. apply (He t). reflexivity.
  - destruct (stoppingRunning w); auto.
    match goal with |- context [Reel.stoppingOnUpdate _ _ ?x] =>
      destruct (stoppingOnUpdate_flags x) as (-> & _) end. exact Hs.
  - destruct (stoppingRunning w); auto.
Qed.

Lemma wrap_frame_stopping w t r :
  stopping (reel (tweenPause (tweenSeek r (loopReel (tweenSeek t w))))) =
  stopping (reel w).
Proof.
  rewrite tweenPause_reel.
  destruct (tweenSeek_flags r (loopReel (tweenSeek t w))) as (-> & _).
  destruct (loopReel_flags (tweenSeek t w)) as (-> & _).
  destruct (tweenSeek_flags t w) as (-> & _). reflexivity.
Qed.

Lemma wrap_frame_tween w t r tw :
  tween w = Some tw ->
  tween (tweenPause (tweenSeek r (loopReel (tweenSeek t w)))) =
  Some (mkTween r true).
Proof.
  intro E. unfold tweenPause.
  destruct (tweenSeek_world r (loopReel (tweenSeek t w))) as (_ & -> & _).
  destruct (loopReel_world (tweenSeek t w)) as (_ & -> & _).
  destruct (tweenSeek_world t w) as (_ & -> & _). rewrite E. reflexivity.
Qed.

(** C3: [stopSpinning] sets [needsToStop] and touches nothing else; and
    the one event that takes a reel from not stopping to stopping is a frame
    of the looping tween whose time has passed [spinningTweenDuration],
    with the latch set: that frame first runs its [loopReel] and re-seeds
    the tween, then pauses it, then enters [beginStoppingAnimation]. *)
Theorem stop_deferred_to_wrap_boundary w :
  (step w CallStopSpinning = stopSpinning w
   /\ needsToStop (reel (stopSpinning w)) = true
   /\ symbols (reel (stopSpinning w)) = symbols (reel w)
   /\ stopping (reel (stopSpinning w)) = stopping (reel w)
   /\ backoutStarted (reel (stopSpinning w)) = backoutStarted (reel w)
   /\ positionY (reel (stopSpinning w)) = positionY (reel w)
   /\ easeInRunning (stopSpinning w) = easeInRunning w
   /\ tween (stopSpinning w) = tween w
   /\ stoppingRunning (stopSpinning w) = stoppingRunning w
   /\ randomCalls (stopSpinning w) = randomCalls w
   /\ emitted (stopSpinning w) = emitted w)
  /\ forall e,
      stopping (reel w) = false ->
      stopping (reel (step w e)) = true ->
      exists t tw,
        e = LoopFrame t
        /\ tween w = Some tw /\ paused tw = false
        /\ spinningTweenDuration (reel w) < t
        /\ needsToStop (reel w) = true
        /\ step w e =
             beginStoppingAnimation
               (tweenPause
                  (tweenSeek (Js.rem t (spinningTweenDuration (reel w)))
                             (loopReel (tweenSeek t w))))
        /\ tween (step w e) =
             Some (mkTween (Js.rem t (spinningTweenDuration (reel w))) true)
        /\ stoppingRunning (step w e) = true.
Proof.
  split; [repeat split|].
  intros e Hs Hs'.
  destruct e as [| | v | | t | v |];
    try (rewrite step_stopping_other in Hs'; [discriminate | intros t; discriminate | exact Hs]).
  destruct (tween w) as [tw|] eqn:E;
    [|simpl in Hs'; rewrite E in Hs'; congruence].
  destruct (paused tw) eqn:P;
    [simpl in Hs'; rewrite E, P in Hs'; congruence|].
  exists t, tw.
  rewrite (step_LoopFrame w t tw E P) in *.
  destruct (Js.gt t (spinningTweenDuration (reel w))) eqn:G.
  - cbv zeta in *. destruct (needsToStop (reel w)) eqn:N.
    + pose proof (wrap_frame_stopping w t (Js.rem t (spinningTweenDuration (reel w))))
        as Hst.
      pose proof (wrap_frame_tween w t (Js.rem t (spinningTweenDuration (reel w))) tw E)
        as Htw.
      rewrite Hs in Hst.
      repeat split; auto.
      * apply JsFacts.gt_spec. exact G.
      * unfold beginStoppingAnimation. rewrite Hst. exact Htw.
      * unfold beginStoppingAnimation. rewrite Hst. reflexivity.
    + exfalso.
      destruct (tweenSeek_flags (Js.rem t (spinningTweenDuration (reel w)))
                  (loopReel (tweenSeek t w))) as (Hx & _).
      rewrite Hx in Hs'.
      destruct (loopReel_flags (tweenSeek t w)) as (Hy & _). rewrite Hy in Hs'.
      destruct (tweenSeek_flags t w) as (Hz & _). rewrite Hz in Hs'. congruence.
  - exfalso. destruct (tweenSeek_flags t w) as (Hz & _). rewrite Hz in Hs'.
    congruence.
Qed.

(** *** A stop request during the ease-in *)

Lemma run_app w l1 l2 : run w (l1 ++ l2) = run (run w l1) l2.
Proof. unfold Reel.run. apply fold_left_app. Qed.

Lemma easingIn_run w0 ins : forall w,
  easingIn w0 w ->
  Forall (fun e => e = CallStopSpinning \/ exists v, e = EaseInFrame v) ins ->
  easingIn w0 (run w ins).
Proof.
  induction ins as [|e ins IH]; intros w Hw Hins; [exact Hw|].
  inversion Hins as [|? ? He Hins']; subst.
  apply IH; [|exact Hins'].
  destruct Hw as (H1 & H2 & H3 & H4 & H5).
  destruct He as [->|[v ->]]; simpl.
  - repeat split; auto.
  - rewrite H1. repeat split; auto.
Qed.

Lemma easeIn_complete w0 w :
  easingIn w0 w -> loopingFree w0 (step w EaseInComplete).
Proof.
  intros (H1 & H2 & H3 & H4 & H5). simpl. rewrite H1.
  match goal with |- context [Reel.startSpinningResume _ _ ?x] =>
    destruct (startSpinningResume_flags x) as (E1 & E2 & E3 & _ & E5 & E6 & E7) end.
  unfold loopingFree. rewrite E1, E2, E3, E5, E6, E7. simpl.
  repeat split; auto. exists (mkTween 0 false). split; reflexivity.
Qed.

Lemma loopingFree_step w0 w t :
  loopingFree w0 w -> loopingFree w0 (step w (LoopFrame t)).
Proof.
  intros (H1 & H2 & (tw & E & P) & H4 & H5 & H6).
  rewrite (step_LoopFrame w t tw E P), H1. cbv zeta.
  destruct (Js.gt t (spinningTweenDuration (reel w))).
  - set (r := Js.rem _ _).
    destruct (tweenSeek_flags r (loopReel (tweenSeek t w))) as (F1 & _ & F3 & _ & _ & F6).
    destruct (tweenSeek_world r (loopReel (tweenSeek t w))) as (_ & G2 & G3 & _ & G5).
    destruct (loopReel_flags (tweenSeek t w)) as (L1 & _ & L3 & _ & _ & _ & L7).
    destruct (loopReel_world (tweenSeek t w)) as (_ & M2 & M3 & M4).
    destruct (tweenSeek_flags t w) as (S1 & _ & S3 & _ & _ & S6).
    destruct (tweenSeek_world t w) as (_ & T2 & T3 & _ & T5).
    unfold loopingFree.
    rewrite F1, F3, F6, G2, G3, G5, L1, L3, L7, M2, M3, M4, S1, S3, S6, T2, T3, T5, E.
    repeat split; auto. eexists. split; [reflexivity|exact P].
  - destruct (tweenSeek_flags t w) as (S1 & _ & S3 & _ & _ & S6).
    destruct (tweenSeek_world t w) as (_ & T2 & T3 & _ & T5).
    unfold loopingFree. rewrite S1, S3, S6, T2, T3, T5, E.
    repeat split; auto. eexists. split; [reflexivity|exact P].
Qed.

Lemma loopingFree_run w0 loops : forall w,
  loopingFree w0 w ->
  Forall (fun e => exists t, e = LoopFrame t) loops ->
  loopingFree w0 (run w loops).
Proof.
  induction loops as [|e loops IH]; intros w Hw Hl; [exact Hw|].
  inversion Hl as [|? ? [t ->] Hl']; subst.
  apply IH; [|exact Hl']. apply loopingFree_step. exact Hw.
Qed.

(** C10: whatever [stopSpinning] calls arrive between [startSpinning] and
    the end of the ease-in, [needsToStop] is false once the ease-in has
    completed; the frames of the looping tween that follow never start the
    stopping animation, pause the tween or emit anything; a stop request
    made while looping does start it, at the next frame past
    [spinningTweenDuration]. *)
Theorem stop_request_during_easeIn_discarded w0 ins loops :
  stopping (reel w0) = false ->
  Forall (fun e => e = CallStopSpinning \/ exists v, e = EaseInFrame v) ins ->
  Forall (fun e => exists t, e = LoopFrame t) loops ->
  let w1 := run (startSpinning w0) (ins ++ [EaseInComplete]) in
  let w2 := run w1 loops in
  needsToStop (reel w1) = false
  /\ needsToStop (reel w2) = false
  /\ stopping (reel w2) = false
  /\ stoppingRunning w2 = stoppingRunning w0
  /\ emitted w2 = emitted w0
  /\ (exists tw, tween w2 = Some tw /\ paused tw = false)
  /\ forall t, spinningTweenDuration (reel w2) < t ->
       stopping (reel (run w2 [CallStopSpinning; LoopFrame t])) = true.
Proof.
  intros Hs Hins Hloops w1 w2.
  assert (H0 : easingIn w0 (startSpinning w0)) by (repeat split; auto).
  assert (H1 : loopingFree w0 w1).
  { unfold w1. rewrite run_app. apply (easeIn_complete w0).
    apply easingIn_run; assumption. }
  assert (H2 : loopingFree w0 w2) by (apply loopingFree_run; assumption).
  destruct H1 as (N1 & _).
  destruct H2 as (N2 & S2 & (tw & E & P) & D2 & R2 & M2).
  repeat split; auto.
  - exists tw. split; assumption.
  - intros t Ht. cbn [Reel.run fold_left].
    change (Reel.step symbolTextures random w2 CallStopSpinning)
      with (stopSpinning w2).
    rewrite (step_LoopFrame (stopSpinning w2) t tw E P).
    apply JsFacts.gt_spec in Ht.
    change (spinningTweenDuration (reel (stopSpinning w2)))
      with (spinningTweenDuration (reel w2)).
    rewrite Ht. cbv zeta. cbn [needsToStop stopSpinning reel setReel setNeedsToStop].
    pose proof (wrap_frame_stopping (stopSpinning w2) t
                  (Js.rem t (spinningTweenDuration (reel w2)))) as Hst.
    change (stopping (reel (stopSpinning w2))) with (stopping (reel w2)) in Hst.
    rewrite S2 in Hst.
    unfold beginStoppingAnimation. rewrite Hst. reflexivity.
Qed.

(** *** The stopping run *)

Notation backoutFirings := (Reel.backoutFirings symbolTextures random).

Lemma beginStoppingAnimation_reentry w :
  stopping (reel w) = true -> beginStoppingAnimation w = w.
Proof. intro H. unfold beginStoppingAnimation. rewrite H. reflexivity. Qed.

Lemma stoppingFrames_flags vs : forall w,
  stoppingRunning w = true ->
  let w' := run w (map StoppingFrame vs) in
  stopping (reel w') = stopping (reel w)
  /\ stoppingRunning w' = true
  /\ emitted w' = emitted w.
Proof.
  induction vs as [|v vs IH]; intros w Hr; cbv zeta; [auto|].
  cbn [map Reel.run fold_left]. cbn [Reel.step]. rewrite Hr.
  match goal with |- context [Reel.stoppingOnUpdate _ _ ?x] =>
    destruct (stoppingOnUpdate_flags x) as (E1 & _ & _ & _ & E5 & E6);
    destruct (IH (Reel.stoppingOnUpdate symbolTextures random x)) as (F1 & F2 & F3)
  end.
  - rewrite E5. exact Hr.
  - unfold Reel.run in *. rewrite F1, F2, F3, E1, E6. auto.
Qed.

Lemma stoppingComplete_emits w :
  stoppingRunning w = true ->
  let w' := step w StoppingComplete in
  emitted w' = emitted w ++ [stoppedSpinning]
  /\ stopping (reel w') = false
  /\ stoppingRunning w' = false
  /\ positionY (reel w') = 0.
Proof.
  intro Hr. cbv zeta. cbn [Reel.step]. rewrite Hr.
  unfold Reel.beginStoppingAnimationResume. cbv zeta.
  cbn [emitted emit stopping positionY reel setReel setStopping setPositionY
       stoppingRunning].
  match goal with |- context [loopReel ?x] =>
    destruct (loopReel_world x) as (_ & _ & E3 & E4) end.
  rewrite E3, E4. cbn [emitted stoppingRunning setStoppingRunning].
  match goal with |- context [Reel.stoppingOnUpdate _ _ ?x] =>
    destruct (stoppingOnUpdate_flags x) as (_ & _ & _ & _ & _ & E6) end.
  rewrite E6. auto.
Qed.

(** The guard of [beginStoppingAnimation] on the downward-only reel: a
    second call while the first stop is in flight changes nothing, and the
    stop emits [stoppedSpinning] once. *)
Lemma beginStoppingAnimation_twice_emits_once w vs1 vs2 :
  stopping (reel w) = false ->
  let w1 := beginStoppingAnimation w in
  let first := run w1 (map StoppingFrame vs1) in
  beginStoppingAnimation first = first
  /\ run (beginStoppingAnimation first) (map StoppingFrame vs2 ++ [StoppingComplete])
     = run w1 (map StoppingFrame (vs1 ++ vs2) ++ [StoppingComplete])
  /\ emitted (run (beginStoppingAnimation first)
                 (map StoppingFrame vs2 ++ [StoppingComplete]))
     = emitted w ++ [stoppedSpinning].
Proof.
  intros Hs w1 first.
  assert (H1 : stoppingRunning w1 = true /\ stopping (reel w1) = true
               /\ emitted w1 = emitted w).
  { unfold w1, beginStoppingAnimation. rewrite Hs. auto. }
  destruct H1 as (R1 & S1 & M1).
  destruct (stoppingFrames_flags vs1 w1 R1) as (F1 & F2 & F3). fold first in F1, F2, F3.
  assert (Hre : beginStoppingAnimation first = first).
  { apply beginStoppingAnimation_reentry. rewrite F1. exact S1. }
  split; [exact Hre|]. rewrite Hre. split.
  - unfold first. rewrite map_app, <- app_assoc, (run_app w1). reflexivity.
  - rewrite run_app.
    destruct (stoppingFrames_flags vs2 first F2) as (G1 & G2 & G3).
    cbn [Reel.run fold_left].
    destruct (stoppingComplete_emits (run first (map StoppingFrame vs2)) G2) as (E & _).
    unfold Reel.run in *. rewrite E, G3, F3, M1. reflexivity.
Qed.

Lemma backoutFirings_started fs : forall w,
  backoutStarted (reel w) = true -> backoutFirings w fs = 0%nat.
Proof.
  induction fs as [|v fs IH]; intros w Hb; [reflexivity|].
  cbn [Reel.backoutFirings]. cbv zeta.
  unfold Reel.stoppingOnUpdate, backoutGuard.
  cbn [backoutStarted reel setReel setPositionY]. rewrite Hb. cbn [negb andb].
  rewrite IH; [reflexivity | exact Hb].
Qed.

Lemma backoutCompensation_flags w :
  let w' := Reel.backoutCompensation symbolTextures random w in
  backoutStarted (reel w') = true
  /\ symbolHeight (reel w') = symbolHeight (reel w).
Proof.
  cbv zeta. unfold Reel.backoutCompensation. cbv zeta. simpl.
  destruct (loopReel_flags w) as (_ & _ & _ & _ & -> & _). auto.
Qed.

(** On the downward-only reel the compensation of the back.out tween runs
    once in a stopping run, whatever frames the driver renders before the
    last one, which is at the target [symbolHeight]. *)
Lemma backout_fires_once w vs :
  backoutStarted (reel w) = false ->
  backoutFirings w (vs ++ [symbolHeight (reel w)]) = 1%nat.
Proof.
  revert w. induction vs as [|v vs IH]; intros w Hb.
  - cbn [app Reel.backoutFirings]. cbv zeta. unfold backoutGuard.
    cbn [backoutStarted positionY symbolHeight reel setReel setPositionY].
    rewrite Hb. cbn [negb andb].
    replace (Js.ge (symbolHeight (reel w)) (symbolHeight (reel w))) with true.
    + reflexivity.
    + symmetry. apply JsFacts.ge_spec. apply Qle_refl.
  - cbn [app Reel.backoutFirings]. cbv zeta.
    unfold Reel.stoppingOnUpdate.
    destruct (backoutGuard (reel (setReel (setPositionY v (reel w)) w))) eqn:G.
    + rewrite backoutFirings_started; [reflexivity|].
      apply backoutCompensation_flags.
    + rewrite <- (IH (setReel (setPositionY v (reel w)) w) Hb) at 1. reflexivity.
Qed.

(** *** Where the symbols are *)

Lemma loopSymbols_positions r l k :
  map y (fst (loopSymbols r l k)) = map (advance r) (map y l).
Proof.
  revert k. induction l as [|s l IH]; intro k; [reflexivity|].
  cbn [Reel.loopSymbols].
  destruct (loopSymbol symbolTextures random r s k) as [s' k1] eqn:E.
  specialize (IH k1). destruct (loopSymbols r l k1) as [l'' k2].
  cbn [fst map] in *. rewrite IH. f_equal.
  unfold loopSymbol in E. cbv zeta in E. unfold advance.
  cbn [y ReelSymbol.setY] in E.
  destruct (Js.ge (y s + symbolHeight r) (reelAreaHeight r - eps));
    injection E as <- _; reflexivity.
Qed.

Lemma loopReel_positions w :
  positions (loopReel w) = map (advance (reel w)) (positions w).
Proof.
  unfold positions. rewrite loopReel_reel. cbn [symbols setSymbols].
  apply loopSymbols_positions.
Qed.

Lemma advance_proper r p q : p == q -> advance r p == advance r q.
Proof.
  intro H. unfold advance, Js.ge.
  destruct (Qle_bool (reelAreaHeight r - eps) (p + symbolHeight r)) eqn:G1;
    destruct (Qle_bool (reelAreaHeight r - eps) (q + symbolHeight r)) eqn:G2;
    try reflexivity; try (rewrite H; reflexivity); exfalso.
  - apply Qle_bool_iff in G1. apply not_true_iff_false in G2.
    apply G2. apply Qle_bool_iff. rewrite <- H. exact G1.
  - apply Qle_bool_iff in G2. apply not_true_iff_false in G1.
    apply G1. apply Qle_bool_iff. rewrite H. exact G2.
Qed.


Lemma ofNat_lt i n : (i < n)%nat -> Js.ofNat i + 1 <= Js.ofNat n.
Proof.
  intro H. rewrite <- JsFacts.ofNat_S. unfold Js.ofNat.
  rewrite <- Zle_Qle. lia.
Qed.












(** *** The phases of a spin *)





Lemma tweenSeek_positions t w : positions (tweenSeek t w) = positions w.
Proof. unfold positions. rewrite tweenSeek_symbols. reflexivity. Qed.











Lemma map_fst_combine {A B} (l1 : list A) : forall (l2 : list B),
  length l1 = length l2 -> map fst (combine l1 l2) = l1.
Proof.
  induction l1 as [|a l1 IH]; intros [|b l2] H; simpl in *; try congruence.
  f_equal. apply IH. congruence.
Qed.

(** The constructor puts the symbols on the resting offsets, in order. *)
Lemma constructor_positions config k :
  positions (Reel.constructor symbolTextures random config k) =
  restingOffsets
    (Config.reelAreaHeight config / Js.ofNat (Config.symbolsPerReel config))
    (Config.symbolsPerReel config).
Proof.
  unfold positions, restingOffsets. simpl. unfold Reel.placeSymbols.
  rewrite map_map. cbn [y ReelSymbol.setY].
  rewrite <- (map_map fst (fun i => (Js.ofNat i - 1) * _)).
  rewrite map_fst_combine; [|rewrite length_seq; reflexivity].
  unfold Reel.newSymbols. rewrite length_map, length_seq. reflexivity.
Qed.

Lemma constructor_geometry config k :
  (0 < Config.symbolsPerReel config)%nat ->
  eps < Config.reelAreaHeight config / Js.ofNat (Config.symbolsPerReel config) ->
  geometry (Config.symbolsPerReel config)
           (reel (Reel.constructor symbolTextures random config k)).
Proof.
  intros Hn He. split; [|exact He]. simpl.
  assert (H : ~ Js.ofNat (Config.symbolsPerReel config) == 0).
  { unfold Js.ofNat. intro H.
    change 0 with (inject_Z 0) in H. rewrite inject_Z_injective in H. lia. }
  field. exact H.
Qed.


(** *** What a pass does to each symbol *)




End World.

(** A stop requested while looping: the frame at 50 ms, before the wrap at
    [1000 / 12] ms, does not start the stop; the frame at 100 ms does. *)
Lemma stop_deferred_to_wrap_boundary_witness :
  stopping (reel (Reel.step Examples.textures Examples.random
                    Examples.latched0 (LoopFrame 50))) = false
  /\ spinningTweenDuration (reel Examples.latched0) < 100
  /\ stoppingRunning (Reel.step Examples.textures Examples.random
                        Examples.latched0 (LoopFrame 100)) = true.
Proof.
  split; [vm_compute; reflexivity|].
  destruct (stop_deferred_to_wrap_boundary Examples.textures Examples.random
              Examples.latched0) as [_ H].
  assert (H1 : stopping (reel Examples.latched0) = false)
    by (vm_compute; reflexivity).
  assert (H2 : stopping (reel (Reel.step Examples.textures Examples.random
                                 Examples.latched0 (LoopFrame 100))) = true)
    by (vm_compute; reflexivity).
  destruct (H (LoopFrame 100) H1 H2) as (t & tw & E & _ & _ & Hlt & _ & _ & _ & Hr).
  injection E as <-. split; [exact Hlt | exact Hr].
Defined.

(** A stop requested during the ease-in leaves the reel looping. *)
Lemma stop_request_during_easeIn_discarded_witness :
  let w2 := Reel.run Examples.textures Examples.random
              (Reel.startSpinning Examples.reel0)
              ((Examples.easeIn0 ++ [EaseInComplete]) ++ Examples.freeLoops0) in
  stopping (reel w2) = false /\ emitted w2 = [].
Proof.
  assert (H1 : stopping (reel Examples.reel0) = false) by (vm_compute; reflexivity).
  assert (H2 : Forall (fun e => e = CallStopSpinning \/ exists v, e = EaseInFrame v)
                      Examples.easeIn0)
    by (repeat constructor; eauto).
  assert (H3 : Forall (fun e => exists t, e = LoopFrame t) Examples.freeLoops0)
    by (repeat constructor; eauto).
  destruct (stop_request_during_easeIn_discarded Examples.textures Examples.random
              Examples.reel0 Examples.easeIn0 Examples.freeLoops0 H1 H2 H3)
    as (_ & _ & S & _ & M & _).
  cbv zeta. rewrite run_app. split; [exact S | exact M].
Defined.



End ReelFacts.

(** ** The up/down reel *)

Module ReelUpDownFacts.

Import ReelUpDown.

Section World.

Variable symbolTextures : list Texture.
Variable random : nat -> Q.

Notation loopSymbols := (ReelUpDown.loopSymbols symbolTextures random).
Notation loopReel := (ReelUpDown.loopReel symbolTextures random).
Notation backoutFirings := (ReelUpDown.backoutFirings symbolTextures random).

Lemma upDown_loopReel_reel w :
  reel (loopReel w) =
  setSymbols (fst (loopSymbols (reel w) (symbols (reel w)) (randomCalls w))) (reel w).
Proof.
  unfold ReelUpDown.loopReel. destruct (loopSymbols _ _ _). reflexivity.
Qed.




(** While [position.y] stays below [symbolHeight], the compensation never
    sets [backoutStarted]: it runs again on every frame at or below
    [-symbolHeight]. *)
Lemma backout_not_latched fs : forall w,
  backoutStarted (reel w) = false ->
  Forall (fun v => v < symbolHeight (reel w)) fs ->
  backoutFirings w fs =
  length (filter (fun v => Js.le v (- symbolHeight (reel w))) fs).
Proof.
  induction fs as [|v fs IH]; intros w Hb Hfs; [reflexivity|].
  inversion Hfs as [|? ? Hv Hfs']; subst.
  cbn [ReelUpDown.backoutFirings filter]. cbv zeta.
  set (w0 := setReel (setPositionY v (reel w)) w).
  assert (Hup : crossedUpperThreshold (reel w0) = false)
    by (apply JsFacts.ge_false; exact Hv).
  unfold ReelUpDown.stoppingOnUpdate, backoutGuard.
  change (backoutStarted (reel w0)) with (backoutStarted (reel w)).
  rewrite Hb, Hup. cbn [negb andb orb].
  change (crossedLowerThreshold (reel w0)) with (Js.le v (- symbolHeight (reel w))).
  destruct (Js.le v (- symbolHeight (reel w))) eqn:L.
  - cbn [length]. rewrite IH.
    + unfold ReelUpDown.backoutCompensation. cbv zeta. rewrite Hup.
      simpl. rewrite upDown_loopReel_reel. reflexivity.
    + unfold ReelUpDown.backoutCompensation. cbv zeta. rewrite Hup.
      simpl. rewrite upDown_loopReel_reel. exact Hb.
    + unfold ReelUpDown.backoutCompensation. cbv zeta. rewrite Hup.
      simpl. rewrite upDown_loopReel_reel. exact Hfs'.
  - rewrite IH; [reflexivity | exact Hb | exact Hfs'].
Qed.

End World.

(** C5 fails on the up/down reel moving up: in a stopping run whose frames
    overshoot the target [-100] three times before the last frame lands on
    it, the compensation runs four times, and [backoutStarted] is still
    false when the run ends. *)
Lemma backout_fires_on_every_frame_when_moving_up :
  stopping (reel Examples.reelUp) = true
  /\ ReelUpDown.backoutFirings Examples.textures Examples.random
       Examples.reelUp Examples.overshootUp = 4%nat
  /\ backoutStarted
       (reel (ReelUpDown.run Examples.textures Examples.random Examples.reelUp
                (map StoppingFrame Examples.overshootUp))) = false.
Proof. vm_compute. repeat split. Qed.

End ReelUpDownFacts.

(** ** The four-direction reel *)

Module ReelFourWayFacts.

Import ReelFourWay.

Section World.

Variable symbolTextures : list Texture.
Variable random : nat -> Q.

Notation loopReel := (ReelFourWay.loopReel symbolTextures random).
Notation step := (ReelFourWay.step symbolTextures random).
Notation run := (ReelFourWay.run symbolTextures random).

Lemma loopReel_quiet w :
  emitted (loopReel w) = emitted w /\ stopping (reel (loopReel w)) = stopping (reel w).
Proof.
  unfold ReelFourWay.loopReel.
  destruct (ReelFourWay.loopSymbols _ _ _ _ _). split; reflexivity.
Qed.

Lemma tweenSeek_quiet t w :
  emitted (tweenSeek t w) = emitted w
  /\ stopping (reel (tweenSeek t w)) = stopping (reel w).
Proof. unfold tweenSeek. destruct (tween w); split; reflexivity. Qed.

Lemma tweenPause_quiet w :
  emitted (tweenPause w) = emitted w
  /\ stopping (reel (tweenPause w)) = stopping (reel w).
Proof. unfold tweenPause. destruct (tween w); split; reflexivity. Qed.

Lemma tweenOnUpdate_quiet w :
  emitted (ReelFourWay.tweenOnUpdate symbolTextures random w) = emitted w
  /\ stopping (reel (ReelFourWay.tweenOnUpdate symbolTextures random w))
     = stopping (reel w).
Proof.
  unfold ReelFourWay.tweenOnUpdate. destruct (tween w) as [tw|]; [|auto].
  cbv zeta. destruct (Js.gt _ _); [|auto].
  set (r := Js.rem _ _).
  destruct (tweenSeek_quiet r (loopReel w)) as (E1 & E2).
  destruct (loopReel_quiet w) as (E3 & E4).
  destruct (needsToStop _).
  - unfold beginStoppingAnimation.
    destruct (tweenPause_quiet (tweenSeek r (loopReel w))) as (E5 & E6).
    split; congruence.
  - split; congruence.
Qed.

Lemma step_quiet w e :
  emitted (step w e) = emitted w /\ stopping (reel (step w e)) = stopping (reel w).
Proof.
  destruct e as [i| |vx vy| |t]; cbn [ReelFourWay.step]; auto.
  - destruct (easeIn w); auto.
  - destruct (easeIn w) as [[tx ty]|]; auto.
    unfold ReelFourWay.startSpinningResume. cbv zeta.
    destruct (getSpinningReelPosition _). simpl.
    match goal with |- context [loopReel ?x] =>
      destruct (loopReel_quiet x) as (-> & ->) end. auto.
  - destruct (tween w) as [tw|] eqn:E; auto. destruct (paused tw); auto.
    destruct (tweenOnUpdate_quiet (tweenSeek t w)) as (-> & ->).
    apply tweenSeek_quiet.
Qed.

Lemma run_quiet evs : forall w,
  emitted (run w evs) = emitted w /\ stopping (reel (run w evs)) = stopping (reel w).
Proof.
  induction evs as [|e evs IH]; intro w; [auto|].
  cbn [ReelFourWay.run fold_left]. unfold ReelFourWay.run in IH.
  destruct (IH (step w e)) as (-> & ->). apply step_quiet.
Qed.

(** On the four-direction reel [beginStoppingAnimation] returns at once:
    however often it is called and whatever the driver delivers before and
    after, [stopping] is never set and nothing is ever emitted. *)
Lemma beginStoppingAnimation_never_emits w evs1 evs2 n :
  let w1 := run w evs1 in
  let w2 := run (beginStoppingAnimationTimes n w1) evs2 in
  beginStoppingAnimationTimes n w1 = w1
  /\ emitted w2 = emitted w
  /\ stopping (reel w2) = stopping (reel w).
Proof.
  cbv zeta.
  assert (H : forall v, beginStoppingAnimationTimes n v = v)
    by (induction n; intro v; simpl; auto).
  rewrite H. split; [reflexivity|].
  destruct (run_quiet evs2 (run w evs1)) as (-> & ->). apply run_quiet.
Qed.

End World.

(** C4 fails on the four-direction reel: spun up, latched to stop and past
    a wrap, it has paused its looping tween; two calls of
    [beginStoppingAnimation] and every later frame leave it there, with no
    [stoppedSpinning] emitted. *)
Lemma beginStoppingAnimation_twice_emits_nothing :
  let w1 := ReelFourWay.run Examples.textures Examples.random
              Examples.reelFourWay Examples.spinAndStop in
  let w2 := ReelFourWay.run Examples.textures Examples.random
              (beginStoppingAnimation (beginStoppingAnimation w1))
              Examples.laterFrames in
  needsToStop (reel w1) = true
  /\ option_map paused (tween w1) = Some true
  /\ emitted w2 = []
  /\ stopping (reel w2) = false
  /\ w2 = w1.
Proof. vm_compute. repeat split. Qed.

End ReelFourWayFacts.

(** ** The wrap-and-recycle pass, on both reels that share its rule *)

Module LoopReelFacts.




End LoopReelFacts.

(** ** The looping tween: its re-seeded time and the reel's offset *)

Module LoopBoundsFacts.

Import Reel.

Lemma trunc_floor (q : Q) : 0 <= q -> Js.trunc q = Qfloor q.
Proof.
  destruct q as [n d]. unfold Qle, Js.trunc, Qfloor. simpl. intro H.
  apply Z.quot_div_nonneg; lia.
Qed.

Lemma div_nonneg (t d : Q) : 0 < d -> 0 <= t -> 0 <= t / d.
Proof. intros Hd Ht. apply Qle_shift_div_l; [exact Hd | lra]. Qed.

(** [t % d] for a time [t >= 0] and a duration [d > 0]: it is in [[0, d)],
    and [t] is it plus a whole number of durations. *)
Lemma rem_bounds (t d : Q) :
  0 < d -> 0 <= t ->
  0 <= Js.rem t d /\ Js.rem t d < d
  /\ t == d * inject_Z (Qfloor (t / d)) + Js.rem t d.
Proof.
  intros Hd Ht. unfold Js.rem.
  rewrite (trunc_floor (t / d) (div_nonneg t d Hd Ht)).
  pose proof (Qfloor_le (t / d)) as F1.
  pose proof (Qlt_floor (t / d)) as F2.
  rewrite inject_Z_plus in F2.
  set (f := inject_Z (Qfloor (t / d))) in *.
  assert (E : d * (t / d) == t) by (field; lra).
  assert (A : d * f <= d * (t / d)) by (apply Qmult_le_l; assumption).
  assert (B : d * (t / d) < d * (f + inject_Z 1)) by (apply Qmult_lt_l; assumption).
  rewrite E in A, B. change (inject_Z 1) with 1 in B.
  repeat split; lra.
Qed.

Lemma tweenValue_bounds r s :
  0 < spinningTweenDuration r -> 0 <= symbolHeight r ->
  0 <= s -> s <= spinningTweenDuration r ->
  0 <= tweenValue r s /\ tweenValue r s <= symbolHeight r.
Proof.
  intros Hd Hh H0 H1. unfold tweenValue.
  assert (E : symbolHeight r * 2 * (s / (spinningTweenDuration r * 2))
              == symbolHeight r * (s / spinningTweenDuration r)) by (field; lra).
  rewrite E.
  assert (A : 0 <= s / spinningTweenDuration r) by (apply div_nonneg; assumption).
  assert (B : s / spinningTweenDuration r <= 1)
    by (apply Qle_shift_div_r; [exact Hd | lra]).
  split.
  - apply Qmult_le_0_compat; assumption.
  - rewrite <- (Qmult_1_r (symbolHeight r)) at 2.
    destruct (Qlt_le_dec 0 (symbolHeight r)) as [P|P].
    + apply Qmult_le_l; assumption.
    + assert (Z : symbolHeight r == 0) by lra. rewrite Z. lra.
Qed.

Lemma tweenValue_below r s :
  0 < spinningTweenDuration r -> 0 < symbolHeight r ->
  s < spinningTweenDuration r ->
  tweenValue r s < symbolHeight r.
Proof.
  intros Hd Hh H1. unfold tweenValue.
  assert (E : symbolHeight r * 2 * (s / (spinningTweenDuration r * 2))
              == symbolHeight r * (s / spinningTweenDuration r)) by (field; lra).
  rewrite E.
  assert (B : s / spinningTweenDuration r < 1)
    by (apply Qlt_shift_div_r; [exact Hd | lra]).
  rewrite <- (Qmult_1_r (symbolHeight r)) at 2.
  apply Qmult_lt_l; assumption.
Qed.

Section World.

Variable symbolTextures : list Texture.
Variable random : nat -> Q.

(** A frame of the running looping tween at a time [t >= 0].  Up to
    [spinningTweenDuration] it only moves the reel, to an offset within one
    symbol height.  Past it, the frame runs one [loopReel] pass and re-seeds
    the tween to [t % spinningTweenDuration], which is below
    [spinningTweenDuration] again, so that the reel's offset is back below
    one symbol height; this also holds when the frame goes on to begin
    the stopping animation. *)
Theorem loop_frame_reseeds_within_one_symbol (w : State) (t : Q) (tw : Tween) :
  tween w = Some tw -> paused tw = false ->
  0 < spinningTweenDuration (reel w) ->
  0 < symbolHeight (reel w) ->
  0 <= t ->
  let d := spinningTweenDuration (reel w) in
  let w' := Reel.step symbolTextures random w (LoopFrame t) in
  0 <= positionY (reel w') /\ positionY (reel w') <= symbolHeight (reel w)
  /\ (t <= d ->
      positions w' = positions w
      /\ tween w' = Some (mkTween t false)
      /\ stopping (reel w') = stopping (reel w))
  /\ (d < t ->
      positions w' = map (advance (reel w)) (positions w)
      /\ (exists tw', tween w' = Some tw'
                      /\ time tw' = Js.rem t d
                      /\ 0 <= time tw' /\ time tw' < d)
      /\ positionY (reel w') < symbolHeight (reel w)).
Proof.
  intros E P Hd Hh Ht d w'.
  assert (Hw' : w' =
    if Js.gt t d then
      let w2 := tweenSeek (Js.rem t d)
                  (Reel.loopReel symbolTextures random (tweenSeek t w)) in
      if needsToStop (reel w) then beginStoppingAnimation (tweenPause w2) else w2
    else tweenSeek t w)
    by (apply (ReelFacts.step_LoopFrame symbolTextures random w t tw); assumption).
  destruct (rem_bounds t d Hd Ht) as (R0 & R1 & _).
  (* the state after the re-seed, whether or not the stop begins *)
  set (w1 := Reel.loopReel symbolTextures random (tweenSeek t w)) in *.
  set (w2 := tweenSeek (Js.rem t d) w1) in *.
  assert (T1 : tween w1 = Some (mkTween t false)).
  { unfold w1. destruct (ReelFacts.loopReel_world symbolTextures random (tweenSeek t w))
      as (_ & -> & _).
    unfold tweenSeek. rewrite E. simpl. rewrite P. reflexivity. }
  assert (D1 : symbolHeight (reel w1) = symbolHeight (reel w)
               /\ spinningTweenDuration (reel w1) = d
               /\ stopping (reel w1) = stopping (reel w)).
  { unfold w1.
    destruct (ReelFacts.loopReel_flags symbolTextures random (tweenSeek t w))
      as (-> & _ & _ & _ & -> & _ & ->).
    unfold tweenSeek. rewrite E. simpl. auto. }
  destruct D1 as (D1h & D1d & D1s).
  assert (P2 : positionY (reel w2) = tweenValue (reel w1) (Js.rem t d)
               /\ tween w2 = Some (mkTween (Js.rem t d) false)
               /\ positions w2 = map (advance (reel w)) (positions w)
               /\ stopping (reel w2) = stopping (reel w)).
  { unfold w2, tweenSeek. rewrite T1. simpl. repeat split; auto.
    unfold positions. simpl. fold (positions w1). unfold w1.
    rewrite ReelFacts.loopReel_positions.
    unfold positions. rewrite ReelFacts.tweenSeek_symbols.
    unfold tweenSeek. rewrite E. reflexivity. }
  destruct P2 as (P2y & P2t & P2p & P2s).
  assert (V2 : 0 <= tweenValue (reel w1) (Js.rem t d)
               /\ tweenValue (reel w1) (Js.rem t d) < symbolHeight (reel w)).
  { split.
    - apply tweenValue_bounds; rewrite ?D1h, ?D1d; lra.
    - rewrite <- D1h. apply tweenValue_below; rewrite ?D1h, ?D1d; lra. }
  assert (S3 : forall v, v = w2 \/ v = beginStoppingAnimation (tweenPause w2) ->
               positionY (reel v) = positionY (reel w2)
               /\ positions v = positions w2
               /\ exists tw', tween v = Some tw' /\ time tw' = Js.rem t d).
  { intros v [->| ->].
    - repeat split. eexists. split; [exact P2t | reflexivity].
    - assert (TP : tweenPause w2 =
                   setTween (Some (mkTween (Js.rem t d) true)) w2)
        by (unfold tweenPause; rewrite P2t; reflexivity).
      rewrite TP. unfold beginStoppingAnimation.
      destruct (stopping (reel (setTween (Some (mkTween (Js.rem t d) true)) w2)))
        eqn:S; simpl; repeat split; eexists; split; reflexivity. }
  destruct (Js.gt t d) eqn:G.
  - apply JsFacts.gt_spec in G.
    assert (Hv : w' = w2 \/ w' = beginStoppingAnimation (tweenPause w2))
      by (rewrite Hw'; cbv zeta; destruct (needsToStop (reel w)); auto).
    destruct (S3 w' Hv) as (Y & Ps & (tw' & Tw & Tm)).
    rewrite Y, P2y. repeat split; try lra.
    + rewrite Ps. exact P2p.
    + exists tw'. rewrite Tm. repeat split; auto.
  - apply JsFacts.gt_false in G. rewrite Hw'.
    assert (Y : positionY (reel (tweenSeek t w)) = tweenValue (reel w) t)
      by (unfold tweenSeek; rewrite E; reflexivity).
    destruct (tweenValue_bounds (reel w) t Hd (Qlt_le_weak _ _ Hh) Ht G) as (V0 & V1).
    rewrite Y. repeat split; auto.
    + apply ReelFacts.tweenSeek_positions.
    + unfold tweenSeek. rewrite E. simpl. rewrite P. reflexivity.
    + apply ReelFacts.tweenSeek_flags.
    + lra.
    + lra.
    + lra.
Qed.

End World.

(** The hard-coded reel, looping: a frame at 100 ms, past the duration of
    [1000 / 12] ms, leaves the reel's offset below one symbol height. *)
Lemma loop_frame_reseeds_within_one_symbol_witness :
  positionY (reel (Reel.step Examples.textures Examples.random
                     Examples.latched0 (LoopFrame 100)))
  < symbolHeight (reel Examples.latched0).
Proof.
  assert (E : tween Examples.latched0 = Some (mkTween 0 false)) by reflexivity.
  assert (Hd : 0 < spinningTweenDuration (reel Examples.latched0)) by reflexivity.
  assert (Hh : 0 < symbolHeight (reel Examples.latched0)) by reflexivity.
  assert (Ht : 0 <= 100) by (vm_compute; discriminate).
  destruct (loop_frame_reseeds_within_one_symbol Examples.textures Examples.random
              Examples.latched0 100 (mkTween 0 false) E eq_refl Hd Hh Ht)
    as (_ & _ & _ & H).
  apply H. reflexivity.
Defined.

End LoopBoundsFacts.

(** ** Every symbol is recycled once in [symbolsPerReel + 1] passes *)

Module PassesFacts.

Import Reel Passes.

Lemma wrapTest_proper r p q : p == q -> wrapTest r p = wrapTest r q.
Proof.
  intro H. unfold wrapTest, Js.ge.
  apply Qleb_comp; [reflexivity | rewrite H; reflexivity].
Qed.

Lemma wraps_proper r k : forall p q, p == q -> wraps r k p = wraps r k q.
Proof.
  induction k as [|k IH]; intros p q H; [reflexivity|].
  cbn [wraps]. rewrite (wrapTest_proper r p q H).
  rewrite (IH _ _ (ReelFacts.advance_proper r p q H)). reflexivity.
Qed.

Lemma after_proper r k : forall p q, p == q -> after r k p == after r k q.
Proof.
  induction k as [|k IH]; intros p q H; [exact H|].
  cbn [after]. apply IH. apply ReelFacts.advance_proper. exact H.
Qed.







Section World.

Variable symbolTextures : list Texture.
Variable random : nat -> Q.

Notation loopReel := (Reel.loopReel symbolTextures random).
Notation passes := (Passes.passes symbolTextures random).






End World.


End PassesFacts.

(** ** The asset loader *)

Module AssetLoaderFacts.

Import AssetLoaderClass.

(** With at least one symbol texture and a draw in [0, 1), the index
    [Math.floor(u * length)] is inside the array. *)
Lemma getRandomSymbolTexture_in_range (l : list Texture) (u : Q) :
  l <> [] -> 0 <= u -> u < 1 ->
  exists t, AssetLoader.getRandomSymbolTexture l u = Some t /\ In t l.
Proof.
  intros Hl H0 H1. unfold AssetLoader.getRandomSymbolTexture. cbv zeta.
  set (n := Js.ofNat (length l)).
  assert (Hn : 0 < n).
  { unfold n, Js.ofNat. change 0 with (inject_Z 0). rewrite <- Zlt_Qlt.
    destruct l; [congruence | simpl; lia]. }
  assert (A : 0 <= u * n) by (apply Qmult_le_0_compat; lra).
  assert (B : u * n < n).
  { rewrite <- (Qmult_1_l n) at 2. apply Qmult_lt_compat_r; assumption. }
  assert (F0 : (0 <= Qfloor (u * n))%Z).
  { rewrite <- (Qfloor_Z 0). apply Qfloor_resp_le. exact A. }
  assert (F1 : (Qfloor (u * n) < Z.of_nat (length l))%Z).
  { rewrite Zlt_Qlt. eapply Qle_lt_trans; [apply Qfloor_le | exact B]. }
  destruct (Z.ltb_spec (Qfloor (u * n)) 0); [lia|].
  destruct (nth_error l (Z.to_nat (Qfloor (u * n)))) as [t|] eqn:E.
  - exists t. split; [reflexivity|]. eapply nth_error_In. exact E.
  - exfalso. apply nth_error_None in E. lia.
Qed.

Section Assets.

Variable AssetPath : Type.
Variable assetsLoad : AssetPath -> Texture.

(** [getInstance] never throws, whatever the static field holds: it makes
    an unloaded object if there is none and hands out the one there is from
    then on; the constructor throws [Singleton] once an object exists; and
    until [load] has run, asking for a random symbol texture or for a named
    texture throws. *)
Theorem getInstance_singleton (st : Static) (u : Q) (name : AssetName) :
  let this := match st with Some i => i | None => mkInstance None end in
  AssetLoaderClass.getInstance st = inr (this, Some this)
  /\ AssetLoaderClass.getInstance (Some this) = inr (this, Some this)
  /\ AssetLoaderClass.constructor (Some this) = inl Singleton
  /\ getInstanceGetRandomSymbolTexture u None = inl SymbolTexturesNotLoaded
  /\ getInstanceGetTexture name None = inl TexturesNotLoaded
  /\ getInstanceGetRandomSymbolTexture u (Some (mkInstance None))
     = inl SymbolTexturesNotLoaded
  /\ getInstanceGetTexture name (Some (mkInstance None)) = inl TexturesNotLoaded.
Proof.
  destruct st as [i|]; repeat split.
Qed.

(** After [getInstance().load(assets)], with at least one symbol path and
    a draw in [0, 1), [getInstance().getRandomSymbolTexture()] returns the
    texture loaded from one of the symbol paths, never [undefined], and the
    named textures are the ones loaded from their paths; a second [load]
    goes to the same object. *)
Theorem loaded_symbol_is_drawn_from_assets
    (assets : AssetsConfig AssetPath) (st st' : Static) (u : Q) :
  getInstanceLoad AssetPath assetsLoad assets st = inr st' ->
  symbols AssetPath assets <> [] ->
  0 <= u -> u < 1 ->
  (exists p,
     In p (symbols AssetPath assets)
     /\ getInstanceGetRandomSymbolTexture u st' = inr (Some (assetsLoad p), st'))
  /\ getInstanceGetTexture spinButtonName st'
     = inr (OneTexture (assetsLoad (spinButton AssetPath assets)), st')
  /\ getInstanceGetTexture stopButtonName st'
     = inr (OneTexture (assetsLoad (stopButton AssetPath assets)), st')
  /\ getInstanceGetTexture symbolsName st'
     = inr (Textures (map assetsLoad (symbols AssetPath assets)), st')
  /\ getInstanceLoad AssetPath assetsLoad assets st' = inr st'.
Proof.
  intros H Hs H0 H1.
  assert (E : st' = Some (load AssetPath assetsLoad assets (mkInstance None))).
  { unfold getInstanceLoad in H. destruct st as [[lt]|]; simpl in H;
      injection H as <-; reflexivity. }
  subst st'. split; [|repeat split].
  assert (Hl : map assetsLoad (symbols AssetPath assets) <> []).
  { destruct (symbols AssetPath assets); [congruence | discriminate]. }
  destruct (getRandomSymbolTexture_in_range _ u Hl H0 H1) as (t & Ht & Hin).
  apply in_map_iff in Hin. destruct Hin as (p & <- & Hp).
  exists p. split; [exact Hp|].
  unfold getInstanceGetRandomSymbolTexture, getRandomSymbolTexture. simpl.
  rewrite Ht. reflexivity.
Qed.

(** With no symbol path configured the draw is [undefined]. *)
Lemma no_symbols_draw_undefined
    (assets : AssetsConfig AssetPath) (st st' : Static) (u : Q) :
  getInstanceLoad AssetPath assetsLoad assets st = inr st' ->
  symbols AssetPath assets = [] ->
  getInstanceGetRandomSymbolTexture u st' = inr (None, st').
Proof.
  intros H Hs.
  assert (E : st' = Some (load AssetPath assetsLoad assets (mkInstance None))).
  { unfold getInstanceLoad in H. destruct st as [[lt]|]; simpl in H;
      injection H as <-; reflexivity. }
  subst st'. unfold getInstanceGetRandomSymbolTexture, getRandomSymbolTexture.
  simpl. rewrite Hs. unfold AssetLoader.getRandomSymbolTexture. simpl.
  match goal with |- context [if ?c then _ else _] => destruct c end;
    [reflexivity|].
  match goal with |- context [nth_error [] ?n] => destruct n end; reflexivity.
Qed.

End Assets.

(** Three symbol paths, loaded on a fresh static field: a draw of one half
    gives the texture of the second path. *)
Lemma loaded_symbol_is_drawn_from_assets_witness :
  let assets := mkAssetsConfig nat [0; 1; 2]%nat 3%nat 4%nat in
  exists p,
    In p [0; 1; 2]%nat
    /\ getInstanceGetRandomSymbolTexture (1 # 2)
         (Some (load nat (fun p => (p + 10)%nat) assets (mkInstance None)))
       = inr (Some (p + 10)%nat,
              Some (load nat (fun p => (p + 10)%nat) assets (mkInstance None))).
Proof.
  cbv zeta.
  assert (H : getInstanceLoad nat (fun p => (p + 10)%nat)
                (mkAssetsConfig nat [0; 1; 2]%nat 3%nat 4%nat) None
              = inr (Some (load nat (fun p => (p + 10)%nat)
                             (mkAssetsConfig nat [0; 1; 2]%nat 3%nat 4%nat)
                             (mkInstance None)))) by reflexivity.
  assert (Hs : symbols nat (mkAssetsConfig nat [0; 1; 2]%nat 3%nat 4%nat) <> [])
    by discriminate.
  assert (H0 : 0 <= 1 # 2) by (vm_compute; discriminate).
  assert (H1 : 1 # 2 < 1) by reflexivity.
  destruct (loaded_symbol_is_drawn_from_assets nat (fun p => (p + 10)%nat)
              _ _ _ (1 # 2) H Hs H0 H1) as ((p & Hp & E) & _).
  exists p. split; [exact Hp | exact E].
Defined.

End AssetLoaderFacts.

(** ** A full spin of the up/down reel *)

Module UpDownCycleFacts.

Import ReelUpDown UpDownGrid.












Section World.

Variable symbolTextures : list Texture.
Variable random : nat -> Q.

Notation loopReel := (ReelUpDown.loopReel symbolTextures random).
Notation step := (ReelUpDown.step symbolTextures random).
Notation run := (ReelUpDown.run symbolTextures random).





















End World.


End UpDownCycleFacts.

(** ** The reel area *)

Module ReelAreaFacts.

Import ReelArea.

Section WithReel.

Variable Reel : Type.
Variable reelStartSpinning : Reel -> Reel.
Variable reelStopSpinning : Reel -> Reel.

Implicit Types a b : ReelArea Reel.

Ltac case_if :=
  match goal with
  | |- context [if ?c then _ else _] => destruct c eqn:?
  end.

Lemma schedule_fold (f : nat -> Q) (g : nat -> Callback) (l : list nat) a :
  fold_left (fun acc i => delayedCall (f i) (g i) acc) l a =
  mkReelArea (reels a) (reelsFinishedSpinningCount a) (stopDelay a)
             (stopInterval a) (startInterval a)
             (delayedCalls a ++ map (fun i => (f i, g i)) l) (emitted a).
Proof.
  revert a. induction l as [|i l IH]; intro a; simpl.
  - rewrite app_nil_r. destruct a; reflexivity.
  - rewrite IH. unfold delayedCall; simpl. rewrite <- app_assoc. reflexivity.
Qed.

Lemma startSpinning_inr a :
  Js.ofNat (length (reels a)) * startInterval a <= stopDelay a ->
  startSpinning a =
  inr (mkReelArea (reels a) 0 (stopDelay a) (stopInterval a) (startInterval a)
                  (delayedCalls a ++ schedule a) (emitted a)).
Proof.
  intro H. unfold startSpinning.
  apply JsFacts.gt_false in H. rewrite H.
  unfold scheduleStarts, scheduleStops. rewrite !schedule_fold. simpl.
  unfold schedule. rewrite <- app_assoc. reflexivity.
Qed.

Lemma startSpinning_inl a :
  stopDelay a < Js.ofNat (length (reels a)) * startInterval a ->
  startSpinning a =
  inl (InvalidConfig (length (reels a)) (startInterval a) (stopDelay a)).
Proof.
  intro H. unfold startSpinning.
  apply JsFacts.gt_spec in H. rewrite H. reflexivity.
Qed.

Lemma startSpinning_passes a a' :
  startSpinning a = inr a' ->
  Js.ofNat (length (reels a)) * startInterval a <= stopDelay a.
Proof.
  intro H.
  destruct (Qlt_le_dec (stopDelay a)
              (Js.ofNat (length (reels a)) * startInterval a)) as [Hlt|Hle];
    [|exact Hle].
  rewrite (startSpinning_inl a Hlt) in H. discriminate.
Qed.


Lemma onReel_length (f : Reel -> Reel) i (rs : list Reel) :
  length (onReel f i rs) = length rs.
Proof.
  revert i. induction rs as [|r rs IH]; intros [|i]; simpl; auto.
Qed.

Lemma areaStep_length a e :
  length (reels (areaStep reelStartSpinning reelStopSpinning a e)) =
  length (reels a).
Proof.
  destruct e as [[i|i]|]; simpl.
  - case_if; simpl; apply onReel_length.
  - apply onReel_length.
  - unfold onReelStoppedSpinning; simpl. case_if; reflexivity.
Qed.

Lemma countEvent_app e l1 l2 :
  countEvent e (l1 ++ l2) = (countEvent e l1 + countEvent e l2)%nat.
Proof.
  unfold countEvent. rewrite filter_app, length_app. reflexivity.
Qed.


Lemma areaRun_length a evs :
  length (reels (areaRun reelStartSpinning reelStopSpinning a evs)) =
  length (reels a).
Proof.
  revert a. induction evs as [|e evs IH]; intro a; simpl; [reflexivity|].
  unfold areaRun in *. simpl. rewrite IH. apply areaStep_length.
Qed.







Lemma areaStep_config a e :
  stopDelay (areaStep reelStartSpinning reelStopSpinning a e) = stopDelay a
  /\ startInterval (areaStep reelStartSpinning reelStopSpinning a e) = startInterval a.
Proof.
  destruct e as [[i|i]|]; simpl; auto.
  - case_if; auto.
  - unfold onReelStoppedSpinning. case_if; auto.
Qed.

Lemma areaRun_config a evs :
  stopDelay (areaRun reelStartSpinning reelStopSpinning a evs) = stopDelay a
  /\ startInterval (areaRun reelStartSpinning reelStopSpinning a evs) = startInterval a.
Proof.
  revert a. induction evs as [|e evs IH]; intro a; simpl; auto.
  unfold areaRun in *. simpl.
  destruct (IH (areaStep reelStartSpinning reelStopSpinning a e)) as [-> ->].
  apply areaStep_config.
Qed.

(** The handler adds one to the count and never resets it; it emits when,
    and only when, the new count is the number of reels. *)
Lemma onReelStoppedSpinning_spec a :
  reelsFinishedSpinningCount (onReelStoppedSpinning a) =
    S (reelsFinishedSpinningCount a)
  /\ reels (onReelStoppedSpinning a) = reels a
  /\ emitted (onReelStoppedSpinning a) =
       if Nat.eqb (S (reelsFinishedSpinningCount a)) (length (reels a))
       then emitted a ++ [allStoppedSpinning] else emitted a.
Proof.
  unfold onReelStoppedSpinning. cbv zeta.
  change (Nat.eqb
            (reelsFinishedSpinningCount
               (setCount (S (reelsFinishedSpinningCount a)) a))
            (length (reels (setCount (S (reelsFinishedSpinningCount a)) a))))
    with (Nat.eqb (S (reelsFinishedSpinningCount a)) (length (reels a))).
  destruct (Nat.eqb (S (reelsFinishedSpinningCount a)) (length (reels a)));
    repeat split; reflexivity.
Qed.

Lemma areaStep_stopped a e :
  let c := reelsFinishedSpinningCount a in
  reelsFinishedSpinningCount (areaStep reelStartSpinning reelStopSpinning a e) =
    (c + if isReelStopped e then 1 else 0)%nat
  /\ countEvent allStoppedSpinning
       (emitted (areaStep reelStartSpinning reelStopSpinning a e)) =
     (countEvent allStoppedSpinning (emitted a)
      + if (isReelStopped e && Nat.eqb (S c) (length (reels a)))%bool
        then 1 else 0)%nat.
Proof.
  destruct e as [[i|i]|]; cbv zeta.
  - simpl. case_if; simpl emitted; simpl reelsFinishedSpinningCount;
      [rewrite countEvent_app|]; split; try lia. reflexivity.
  - simpl. split; lia.
  - cbn [areaStep isReelStopped andb].
    destruct (onReelStoppedSpinning_spec a) as (-> & _ & ->).
    split; [lia|]. case_if; [rewrite countEvent_app; reflexivity | lia].
Qed.

Lemma areaRun_stopped evs : forall a,
  let c := reelsFinishedSpinningCount a in
  let n := length (reels a) in
  reelsFinishedSpinningCount (areaRun reelStartSpinning reelStopSpinning a evs) =
    (c + stops evs)%nat
  /\ countEvent allStoppedSpinning
       (emitted (areaRun reelStartSpinning reelStopSpinning a evs)) =
     (countEvent allStoppedSpinning (emitted a)
      + if ((c <? n) && (n <=? c + stops evs))%nat%bool then 1 else 0)%nat.
Proof.
  induction evs as [|e evs IH]; intro a; cbv zeta.
  - unfold stops; simpl. split; [lia|].
    destruct (Nat.ltb_spec (reelsFinishedSpinningCount a) (length (reels a)));
      destruct (Nat.leb_spec (length (reels a)) (reelsFinishedSpinningCount a + 0));
      simpl; lia.
  - unfold areaRun in *. simpl fold_left.
    destruct (IH (areaStep reelStartSpinning reelStopSpinning a e)) as [E1 E2].
    rewrite E1, E2, areaStep_length.
    destruct (areaStep_stopped a e) as [-> ->].
    unfold stops. cbn [filter].
    generalize (reelsFinishedSpinningCount a) (length (reels a))
               (countEvent allStoppedSpinning (emitted a)).
    intros c n k.
    destruct (isReelStopped e); cbn [length andb].
    + generalize (length (filter isReelStopped evs)). intro m.
      split; [lia|].
      destruct (Nat.eqb_spec (S c) n);
      repeat match goal with
        | |- context [Nat.ltb ?x ?y] => destruct (Nat.ltb_spec x y)
        | |- context [Nat.leb ?x ?y] => destruct (Nat.leb_spec x y)
        end; cbn [andb]; lia.
    + rewrite !Nat.add_0_r. split; reflexivity.
Qed.

Lemma stops_app l1 l2 : stops (l1 ++ l2) = (stops l1 + stops l2)%nat.
Proof. unfold stops. rewrite filter_app, length_app. reflexivity. Qed.


(** C7: every [stoppedSpinning] adds one to the count; within the spin
    cycle a successful [startSpinning] opens, [allStoppedSpinning] has been
    emitted once when the count has reached the number of reels and not at
    all before; the count is 0 after [startSpinning] and the handler never
    resets it; the next [startSpinning] goes through and resets it again. *)
Theorem allStoppedSpinning_once_per_cycle a a' evs :
  startSpinning a = inr a' ->
  (0 < length (reels a))%nat ->
  stops evs = length (reels a) ->
  reelsFinishedSpinningCount a' = 0%nat
  /\ (forall b,
        reelsFinishedSpinningCount (onReelStoppedSpinning b) =
          S (reelsFinishedSpinningCount b)
        /\ emitted (onReelStoppedSpinning b) =
             if Nat.eqb (S (reelsFinishedSpinningCount b)) (length (reels b))
             then emitted b ++ [allStoppedSpinning] else emitted b)
  /\ (forall pre post, evs = pre ++ post ->
        let a1 := areaRun reelStartSpinning reelStopSpinning a' pre in
        reelsFinishedSpinningCount a1 = stops pre
        /\ countEvent allStoppedSpinning (emitted a1) =
           (countEvent allStoppedSpinning (emitted a)
            + if Nat.eqb (stops pre) (length (reels a)) then 1 else 0)%nat)
  /\ (exists a'',
        startSpinning (areaRun reelStartSpinning reelStopSpinning a' evs) = inr a''
        /\ reelsFinishedSpinningCount a'' = 0%nat).
Proof.
  intros Hs Hn He.
  pose proof (startSpinning_passes a a' Hs) as Hle.
  rewrite (startSpinning_inr a Hle) in Hs. injection Hs as <-.
  split; [reflexivity|]. split; [|split].
  - intro b. destruct (onReelStoppedSpinning_spec b) as (E1 & _ & E3). auto.
  - intros pre post ->. cbv zeta.
    rewrite stops_app in He.
    match goal with |- context [areaRun _ _ ?x pre] =>
      destruct (areaRun_stopped pre x) as [E1 E2] end.
    simpl in E1, E2. rewrite E1, E2. split; [reflexivity|].
    destruct (Nat.eqb_spec (stops pre) (length (reels a)));
      destruct (Nat.leb_spec (length (reels a)) (stops pre));
      destruct (Nat.ltb_spec 0 (length (reels a))); simpl; lia.
  - match goal with |- context [areaRun _ _ ?x evs] => set (a0 := x) end.
    assert (Hle' : Js.ofNat (length (reels (areaRun reelStartSpinning
                                              reelStopSpinning a0 evs)))
                   * startInterval (areaRun reelStartSpinning reelStopSpinning a0 evs)
                   <= stopDelay (areaRun reelStartSpinning reelStopSpinning a0 evs)).
    { rewrite areaRun_length.
      destruct (areaRun_config a0 evs) as [-> ->]. exact Hle. }
    rewrite (startSpinning_inr _ Hle'). eexists. split; reflexivity.
Qed.

End WithReel.


(** The two configurations the specification lists behave as it says. *)
Example startSpinning_4000_passes :
  exists a', startSpinning Examples.area4000 = inr a'.
Proof. eexists. vm_compute. reflexivity. Qed.

Example startSpinning_1500_fails :
  startSpinning Examples.area1500 = inl (InvalidConfig 6 400 1500).
Proof. vm_compute. reflexivity. Qed.


(** Three reels: the third [stoppedSpinning] of the cycle, and none before,
    makes the area emit [allStoppedSpinning]. *)
Lemma allStoppedSpinning_once_per_cycle_witness :
  match startSpinning Examples.area3 with
  | inl _ => False
  | inr a' =>
      reelsFinishedSpinningCount a' = 0%nat
      /\ countEvent allStoppedSpinning
           (emitted (areaRun Reel.startSpinning Reel.stopSpinning a'
                       Examples.cycle3)) = 1%nat
  end.
Proof.
  destruct (startSpinning Examples.area3) as [e|a'] eqn:E.
  - vm_compute in E. discriminate.
  - assert (Hn : (0 < length (reels Examples.area3))%nat) by (vm_compute; lia).
    assert (He : stops Examples.cycle3 = length (reels Examples.area3))
      by reflexivity.
    destruct (allStoppedSpinning_once_per_cycle Reel.State Reel.startSpinning
                Reel.stopSpinning Examples.area3 a' Examples.cycle3 E Hn He)
      as (H1 & _ & H3 & _).
    split; [exact H1|].
    destruct (H3 Examples.cycle3 [] (eq_sym (app_nil_r _))) as [_ H].
    rewrite H. reflexivity.
Defined.

End ReelAreaFacts.

(** ** The margin the configuration check leaves *)

Module ScheduleFacts.

Import ReelArea.

Section WithReel.

Variable Reel : Type.

Implicit Types a : ReelArea Reel.

Lemma in_schedule_start a ts i :
  In (ts, StartReel i) (schedule a) ->
  ts = Js.ofNat i * startInterval a /\ (i < length (reels a))%nat.
Proof.
  unfold schedule. rewrite in_app_iff, !in_map_iff.
  intros [(k & E & Hk)|(k & E & _)]; [|discriminate].
  injection E as <- <-. apply in_seq in Hk. split; [reflexivity | lia].
Qed.

Lemma in_schedule_stop a tp j :
  In (tp, StopReel j) (schedule a) ->
  tp = stopDelay a + Js.ofNat j * stopInterval a /\ (j < length (reels a))%nat.
Proof.
  unfold schedule. rewrite in_app_iff, !in_map_iff.
  intros [(k & E & _)|(k & E & Hk)]; [discriminate|].
  injection E as <- <-. apply in_seq in Hk. split; [reflexivity | lia].
Qed.

(** When [startSpinning] goes through with intervals that are not negative,
    every start command it registers is due at least one [startInterval]
    before every stop latch it registers: the check compares the full reel
    count times the interval, one interval more than the last start. *)
Theorem starts_precede_stops_by_one_interval a a' ts tp i j :
  startSpinning a = inr a' ->
  0 <= startInterval a ->
  0 <= stopInterval a ->
  In (ts, StartReel i) (schedule a) ->
  In (tp, StopReel j) (schedule a) ->
  ts + startInterval a <= tp.
Proof.
  intros Hs H1 H2 Hi Hj.
  apply in_schedule_start in Hi. destruct Hi as (-> & Hi).
  apply in_schedule_stop in Hj. destruct Hj as (-> & Hj).
  pose proof (ReelAreaFacts.startSpinning_passes Reel a a' Hs) as Hle.
  pose proof (ReelFacts.ofNat_lt i _ Hi) as Hn.
  assert (A : (Js.ofNat i + 1) * startInterval a
              <= Js.ofNat (length (reels a)) * startInterval a)
    by (apply Qmult_le_compat_r; assumption).
  assert (B : 0 <= Js.ofNat j * stopInterval a)
    by (apply Qmult_le_0_compat; [apply JsFacts.ofNat_nonneg | assumption]).
  lra.
Qed.

End WithReel.

(** In the hard-coded configuration the fourth reel starts at 1200 ms and
    the first stop latch is due at 4000 ms. *)
Lemma starts_precede_stops_by_one_interval_witness :
  1200 + 400 <= 4000.
Proof.
  destruct (startSpinning Examples.area4000) as [e|a'] eqn:E.
  - vm_compute in E. discriminate.
  - assert (H1 : 0 <= startInterval Examples.area4000)
      by (vm_compute; discriminate).
    assert (H2 : 0 <= stopInterval Examples.area4000)
      by (vm_compute; discriminate).
    assert (Hi : In (1200, StartReel 3) (schedule Examples.area4000))
      by (vm_compute; tauto).
    assert (Hj : In (4000, StopReel 0) (schedule Examples.area4000))
      by (vm_compute; tauto).
    exact (starts_precede_stops_by_one_interval Reel.State Examples.area4000 a'
             1200 4000 3 0 E H1 H2 Hi Hj).
Defined.

End ScheduleFacts.

(** ** The buttons of the game *)

Module GameUiFacts.

Import ReelArea GameUi.

Section WithReel.

Variable Reel : Type.
Variable newReel : Config.GameConfig -> nat -> Reel.
Variable reelStartSpinning : Reel -> Reel.
Variable reelStopSpinning : Reel -> Reel.

Notation Game := (GameUi.Game Reel).
Notation step := (GameUi.step Reel reelStartSpinning reelStopSpinning).
Notation run := (GameUi.run Reel reelStartSpinning reelStopSpinning).
Notation notify := (GameUi.notify Reel).

Implicit Types g : Game.

(** An event of the area emits at most one notification and leaves the
    registered calls alone. *)
Lemma areaStep_emitted (a : ReelArea Reel) ev :
  exists new,
    emitted (areaStep reelStartSpinning reelStopSpinning a ev) = emitted a ++ new
    /\ (new = [] \/ new = [allStartedSpinning] \/ new = [allStoppedSpinning])
    /\ delayedCalls (areaStep reelStartSpinning reelStopSpinning a ev) = delayedCalls a.
Proof.
  destruct ev as [[i|i]|]; cbn [areaStep fire].
  - cbv zeta. destruct (Z.eqb _ _).
    + exists [allStartedSpinning]. repeat split; auto.
    + exists []. rewrite app_nil_r. repeat split; auto.
  - exists []. rewrite app_nil_r. repeat split; auto.
  - unfold onReelStoppedSpinning. cbv zeta.
    destruct (Nat.eqb _ _) eqn:B.
    + exists [allStoppedSpinning]. repeat split; auto.
    + exists []. rewrite app_nil_r. repeat split; auto.
Qed.

Lemma skipn_app_exact {A} (l new : list A) : skipn (length l) (l ++ new) = new.
Proof. induction l as [|a l IH]; simpl; auto. Qed.

Lemma notify_buttonsOk g e : buttonsOk g -> buttonsOk (notify g e).
Proof.
  intros (V & (S1 & S2) & (T1 & T2)).
  destruct e; unfold buttonsOk, consistent; cbn; repeat split; auto.
Qed.

Lemma notifyAll_buttonsOk new : forall g,
  buttonsOk g -> buttonsOk (fold_left notify new g).
Proof.
  induction new as [|e new IH]; intros g H; [exact H|].
  cbn [fold_left]. apply IH. apply notify_buttonsOk. exact H.
Qed.

Lemma step_buttonsOk g e : buttonsOk g -> buttonsOk (step g e).
Proof.
  intros H. destruct e as [| |ev]; cbn [GameUi.step].
  - destruct (Button.interactive (spinButton g)); [|exact H].
    unfold onSpinClick. destruct (startSpinning (reelArea g)); [exact H|].
    destruct H as (V & (S1 & S2) & (T1 & T2)).
    unfold buttonsOk, consistent; cbn; repeat split; auto.
  - destruct (Button.interactive (stopButton g)); [|exact H].
    destruct H as (V & (S1 & S2) & (T1 & T2)).
    unfold buttonsOk, consistent; cbn; repeat split; auto.
  - cbv zeta. apply notifyAll_buttonsOk. exact H.
Qed.

Lemma run_buttonsOk evs : forall g, buttonsOk g -> buttonsOk (run g evs).
Proof.
  induction evs as [|e evs IH]; intros g Hg; [exact Hg|].
  cbn [GameUi.run fold_left]. apply IH. apply step_buttonsOk. exact Hg.
Qed.

(** From the constructor on, whatever clicks and area events follow,
    exactly one of the two buttons is visible, and each button's
    [eventMode] and [alpha] agree with its [disabled] flag. *)
Theorem one_button_visible (config : Config.GameConfig) (evs : list UiEvent) :
  let g := run (GameUi.constructor Reel newReel config) evs in
  xorb (visible (spinButton g)) (visible (stopButton g)) = true
  /\ eventMode (spinButton g)
     = (if disabled (spinButton g) then noneMode else staticMode)
  /\ alpha (spinButton g) = (if disabled (spinButton g) then 1 # 2 else 1)
  /\ eventMode (stopButton g)
     = (if disabled (stopButton g) then noneMode else staticMode)
  /\ alpha (stopButton g) = (if disabled (stopButton g) then 1 # 2 else 1).
Proof.
  cbv zeta.
  assert (H : buttonsOk (run (GameUi.constructor Reel newReel config) evs)).
  { apply run_buttonsOk. repeat split. }
  destruct H as (V & (S1 & S2) & (T1 & T2)). auto.
Qed.

Lemma step_Area g ev :
  exists new,
    (new = [] \/ new = [allStartedSpinning] \/ new = [allStoppedSpinning])
    /\ step g (Area ev) =
       fold_left notify new
         (mkGame Reel (areaStep reelStartSpinning reelStopSpinning (reelArea g) ev)
                 (spinButton g) (stopButton g))
    /\ emitted (areaStep reelStartSpinning reelStopSpinning (reelArea g) ev)
       = emitted (reelArea g) ++ new
    /\ delayedCalls (areaStep reelStartSpinning reelStopSpinning (reelArea g) ev)
       = delayedCalls (reelArea g).
Proof.
  destruct (areaStep_emitted (reelArea g) ev) as (new & E & C & D).
  exists new. repeat split; auto.
  cbn [GameUi.step]. cbv zeta. rewrite E, skipn_app_exact. reflexivity.
Qed.

Lemma countEvent_snoc e l x :
  countEvent e (l ++ [x]) =
  (countEvent e l
   + match e, x with
     | allStartedSpinning, allStartedSpinning => 1
     | allStoppedSpinning, allStoppedSpinning => 1
     | _, _ => 0
     end)%nat.
Proof. rewrite ReelAreaFacts.countEvent_app. destruct e, x; reflexivity. Qed.

(** What one event does to the counts of notifications. *)
Lemma step_counts g e :
  (allStopped g <= allStopped (step g e))%nat
  /\ (allStarted g <= allStarted (step g e))%nat.
Proof.
  unfold allStopped, allStarted.
  destruct e as [| |ev].
  - cbn [GameUi.step]. destruct (Button.interactive (spinButton g)); [|lia].
    unfold onSpinClick.
    destruct (startSpinning (reelArea g)) as [err|a] eqn:E; [lia|].
    pose proof (ReelAreaFacts.startSpinning_passes Reel _ _ E) as Hle.
    rewrite (ReelAreaFacts.startSpinning_inr Reel _ Hle) in E.
    injection E as <-. cbn -[countEvent]. lia.
  - cbn [GameUi.step]. destruct (Button.interactive (stopButton g));
      cbn -[countEvent]; lia.
  - destruct (step_Area g ev) as (new & C & -> & E & _).
    destruct C as [->|[->| ->]]; cbn [fold_left GameUi.notify];
      cbn [reelArea onAllStartedSpinning onAllStoppedSpinning showSpinButton];
      rewrite E, ?app_nil_r, ?countEvent_snoc; lia.
Qed.

Lemma run_counts evs : forall g,
  (allStopped g <= allStopped (run g evs))%nat
  /\ (allStarted g <= allStarted (run g evs))%nat.
Proof.
  induction evs as [|e evs IH]; intro g;
    [cbn [GameUi.run fold_left]; split; lia|].
  cbn [GameUi.run fold_left].
  destruct (IH (step g e)) as (A & B). destruct (step_counts g e) as (C & D).
  unfold GameUi.run in *. split; lia.
Qed.

Lemma step_spin_waits g e :
  Button.interactive (spinButton g) = false ->
  allStopped (step g e) = allStopped g ->
  Button.interactive (spinButton (step g e)) = false
  /\ delayedCalls (reelArea (step g e)) = delayedCalls (reelArea g).
Proof.
  intros H Hc. destruct e as [| |ev].
  - cbn [GameUi.step]. rewrite H. auto.
  - cbn [GameUi.step]. destruct (Button.interactive (stopButton g)); [|auto].
    split; reflexivity.
  - destruct (step_Area g ev) as (new & C & E1 & E2 & E3).
    rewrite E1 in *. destruct C as [->|[->| ->]]; cbn [fold_left GameUi.notify] in *.
    + cbn. auto.
    + cbn. auto.
    + exfalso. unfold allStopped in Hc.
      cbn [reelArea onAllStoppedSpinning showSpinButton] in Hc.
      rewrite E2, countEvent_snoc in Hc. lia.
Qed.

Lemma run_spin_waits evs : forall g,
  Button.interactive (spinButton g) = false ->
  allStopped (run g evs) = allStopped g ->
  Button.interactive (spinButton (run g evs)) = false
  /\ delayedCalls (reelArea (run g evs)) = delayedCalls (reelArea g).
Proof.
  induction evs as [|e evs IH]; intros g H Hc; [auto|].
  cbn [GameUi.run fold_left] in *.
  destruct (run_counts evs (step g e)) as (A & _).
  destruct (step_counts g e) as (B & _).
  unfold GameUi.run in *.
  assert (Hs : allStopped (step g e) = allStopped g) by lia.
  destruct (step_spin_waits g e H Hs) as (S1 & S2).
  destruct (IH (step g e) S1 ltac:(lia)) as (R1 & R2).
  split; [exact R1 | congruence].
Qed.

(** A click on the spin button when it is interactive.  If the area's
    [startSpinning] throws, nothing changes.  If it goes through, the stop
    button is shown, disabled, and the spin button is hidden; and as long
    as the area has not emitted another [allStoppedSpinning], whatever
    clicks and area events follow, the spin button stays out of reach and
    no further calls are registered: [startSpinning] is not called again
    during a spin. *)
Theorem spin_click_blocks_restart g evs :
  Button.interactive (spinButton g) = true ->
  match startSpinning (reelArea g) with
  | inl _ => step g ClickSpin = g
  | inr a =>
      let g1 := step g ClickSpin in
      reelArea g1 = a
      /\ visible (stopButton g1) = true
      /\ disabled (stopButton g1) = true
      /\ visible (spinButton g1) = false
      /\ (allStopped (run g1 evs) = allStopped g1 ->
          Button.interactive (spinButton (run g1 evs)) = false
          /\ delayedCalls (reelArea (run g1 evs)) = delayedCalls a)
  end.
Proof.
  intro H.
  destruct (startSpinning (reelArea g)) as [err|a] eqn:E.
  - cbn [GameUi.step]. rewrite H. unfold onSpinClick. rewrite E. reflexivity.
  - cbv zeta.
    assert (G1 : step g ClickSpin =
                 mkGame Reel a (Button.setVisible false (spinButton g))
                        (Button.disable (Button.setVisible true (stopButton g)))).
    { cbn [GameUi.step]. rewrite H. unfold onSpinClick. rewrite E. reflexivity. }
    rewrite G1. do 4 (split; [reflexivity|]).
    intro Hc.
    apply (run_spin_waits evs
             (mkGame Reel a (Button.setVisible false (spinButton g))
                     (Button.disable (Button.setVisible true (stopButton g)))));
      [reflexivity | exact Hc].
Qed.

Lemma step_stop_waits g e :
  Button.interactive (stopButton g) = false ->
  allStarted (step g e) = allStarted g ->
  Button.interactive (stopButton (step g e)) = false.
Proof.
  intros H Hc. destruct e as [| |ev].
  - cbn [GameUi.step]. destruct (Button.interactive (spinButton g)); [|exact H].
    unfold onSpinClick. destruct (startSpinning (reelArea g)); [exact H|].
    unfold Button.interactive. cbn. reflexivity.
  - cbn [GameUi.step]. rewrite H. exact H.
  - destruct (step_Area g ev) as (new & C & E1 & E2 & E3).
    rewrite E1 in *. destruct C as [->|[->| ->]]; cbn [fold_left GameUi.notify] in *.
    + exact H.
    + exfalso. unfold allStarted in Hc.
      cbn [reelArea onAllStartedSpinning] in Hc.
      rewrite E2, countEvent_snoc in Hc. lia.
    + unfold Button.interactive. cbn. reflexivity.
Qed.

(** While the stop button is out of reach it stays so, whatever clicks and
    area events follow, until the area emits [allStartedSpinning]: the
    manual stop cannot be pressed before every start command has gone
    out. *)
Theorem stop_button_waits_for_allStartedSpinning evs : forall g,
  Button.interactive (stopButton g) = false ->
  allStarted (run g evs) = allStarted g ->
  Button.interactive (stopButton (run g evs)) = false.
Proof.
  induction evs as [|e evs IH]; intros g H Hc; [exact H|].
  cbn [GameUi.run fold_left] in *.
  destruct (run_counts evs (step g e)) as (_ & A).
  destruct (step_counts g e) as (_ & B).
  unfold GameUi.run in *.
  assert (Hs : allStarted (step g e) = allStarted g) by lia.
  apply IH; [apply step_stop_waits; assumption | lia].
Qed.

End WithReel.

(** Three reels: after the spin click, through the start commands and the
    player's clicks on both buttons, the spin button is out of reach. *)
Lemma spin_click_blocks_restart_witness :
  Button.interactive
    (spinButton
       (GameUi.run Reel.State Reel.startSpinning Reel.stopSpinning
          (GameUi.step Reel.State Reel.startSpinning Reel.stopSpinning
             GameExamples.game3 ClickSpin)
          GameExamples.clicks3)) = false.
Proof.
  pose proof (spin_click_blocks_restart Reel.State Reel.startSpinning
                Reel.stopSpinning GameExamples.game3 GameExamples.clicks3 eq_refl)
    as H.
  destruct (startSpinning (reelArea GameExamples.game3)) as [e|a] eqn:E.
  - vm_compute in E. discriminate.
  - destruct H as (_ & _ & _ & _ & H). apply H. vm_compute. reflexivity.
Defined.

(** Three reels: until the third start command has gone out, the stop
    button is out of reach. *)
Lemma stop_button_waits_for_allStartedSpinning_witness :
  Button.interactive
    (stopButton
       (GameUi.run Reel.State Reel.startSpinning Reel.stopSpinning
          (GameUi.step Reel.State Reel.startSpinning Reel.stopSpinning
             GameExamples.game3 ClickSpin)
          GameExamples.earlyClicks3)) = false.
Proof.
  apply (stop_button_waits_for_allStartedSpinning Reel.State Reel.startSpinning
           Reel.stopSpinning).
  - vm_compute. reflexivity.
  - vm_compute. reflexivity.
Defined.

End GameUiFacts.

(** ** The manual stop *)

Module ManualStopFacts.

Import ReelArea.

(** [ReelArea.stopSpinning], on an area of downward-only reels, sets
    [needsToStop] on every reel and changes nothing else: the count, the
    notifications and the registered calls stay (the scheduled stop
    latches are not withdrawn) and a second call changes nothing more.
    Every reel that is looping then begins its stopping animation at its
    next frame past [spinningTweenDuration]. *)
Theorem manual_stop_latches_every_reel
    (symbolTextures : list Texture) (random : nat -> Q)
    (a : ReelArea Reel.State) :
  let a' := stopSpinning Reel.stopSpinning a in
  reelsFinishedSpinningCount a' = reelsFinishedSpinningCount a
  /\ delayedCalls a' = delayedCalls a
  /\ emitted a' = emitted a
  /\ stopSpinning Reel.stopSpinning a' = a'
  /\ forall i w,
       nth_error (reels a) i = Some w ->
       nth_error (reels a') i = Some (Reel.stopSpinning w)
       /\ Reel.needsToStop (Reel.reel (Reel.stopSpinning w)) = true
       /\ forall t tw,
            Reel.tween w = Some tw -> paused tw = false ->
            Reel.stopping (Reel.reel w) = false ->
            Reel.spinningTweenDuration (Reel.reel w) < t ->
            let w' := Reel.step symbolTextures random (Reel.stopSpinning w)
                        (LoopFrame t) in
            Reel.stopping (Reel.reel w') = true
            /\ Reel.stoppingRunning w' = true
            /\ Reel.tween w' =
               Some (mkTween (Js.rem t (Reel.spinningTweenDuration (Reel.reel w)))
                             true).
Proof.
  cbv zeta. split; [reflexivity|]. split; [reflexivity|]. split; [reflexivity|].
  split.
  - unfold stopSpinning, setReels. cbn [reels]. f_equal.
    rewrite map_map. apply map_ext. intros [r e t s k m]. reflexivity.
  - intros i w H. split; [|split; [reflexivity|]].
    + unfold stopSpinning, setReels. cbn [reels].
      rewrite nth_error_map, H. reflexivity.
    + intros t tw E P S Ht.
      rewrite (ReelFacts.step_LoopFrame symbolTextures random
                 (Reel.stopSpinning w) t tw E P).
      apply JsFacts.gt_spec in Ht.
      change (Reel.spinningTweenDuration (Reel.reel (Reel.stopSpinning w)))
        with (Reel.spinningTweenDuration (Reel.reel w)).
      rewrite Ht. cbv zeta.
      change (Reel.needsToStop (Reel.reel (Reel.stopSpinning w))) with true.
      cbv iota.
      pose proof (ReelFacts.wrap_frame_stopping symbolTextures random
                    (Reel.stopSpinning w) t
                    (Js.rem t (Reel.spinningTweenDuration (Reel.reel w)))) as Hst.
      change (Reel.stopping (Reel.reel (Reel.stopSpinning w)))
        with (Reel.stopping (Reel.reel w)) in Hst.
      rewrite S in Hst.
      pose proof (ReelFacts.wrap_frame_tween symbolTextures random
                    (Reel.stopSpinning w) t
                    (Js.rem t (Reel.spinningTweenDuration (Reel.reel w))) tw E)
        as Htw.
      unfold Reel.beginStoppingAnimation. rewrite Hst.
      repeat split. exact Htw.
Qed.

(** The first reel of the three-reel area, looping: after the manual stop
    its frame at 100 ms begins the stopping animation. *)
Lemma manual_stop_latches_every_reel_witness :
  let a := setReels [Examples.latched0; Examples.reel0] Examples.area3 in
  exists w',
    nth_error (reels (stopSpinning Reel.stopSpinning a)) 0 = Some w'
    /\ Reel.stopping
         (Reel.reel (Reel.step Examples.textures Examples.random w' (LoopFrame 100)))
       = true.
Proof.
  cbv zeta.
  destruct (manual_stop_latches_every_reel Examples.textures Examples.random
              (setReels [Examples.latched0; Examples.reel0] Examples.area3))
    as (_ & _ & _ & _ & H).
  destruct (H 0%nat Examples.latched0 eq_refl) as (N & _ & F).
  exists (Reel.stopSpinning Examples.latched0). split; [exact N|].
  apply (F 100 (mkTween 0 false)); reflexivity.
Defined.

End ManualStopFacts.

(** ** The symbol count in the later drafts; the four-direction reel at a
    stop request *)

Module DraftsFacts.

Section World.

Variable symbolTextures : list Texture.
Variable random : nat -> Q.

(** *** The up/down reel *)

Lemma upDown_loopSymbols_length r l k :
  length (fst (ReelUpDown.loopSymbols symbolTextures random r l k)) = length l.
Proof.
  revert k. induction l as [|s l IH]; intro k; simpl; [reflexivity|].
  destruct (ReelUpDown.updateSymbolPosition symbolTextures random r s k) as [s' k1].
  specialize (IH k1).
  destruct (ReelUpDown.loopSymbols symbolTextures random r l k1) as [l'' k2].
  simpl in *. congruence.
Qed.

Lemma upDown_loopReel_length w :
  length (ReelUpDown.symbols (ReelUpDown.reel
            (ReelUpDown.loopReel symbolTextures random w)))
  = length (ReelUpDown.symbols (ReelUpDown.reel w)).
Proof.
  rewrite ReelUpDownFacts.upDown_loopReel_reel. simpl.
  apply upDown_loopSymbols_length.
Qed.

Lemma upDown_stoppingOnUpdate_length w :
  length (ReelUpDown.symbols (ReelUpDown.reel
            (ReelUpDown.stoppingOnUpdate symbolTextures random w)))
  = length (ReelUpDown.symbols (ReelUpDown.reel w)).
Proof.
  unfold ReelUpDown.stoppingOnUpdate.
  destruct (ReelUpDown.backoutGuard _); [|reflexivity].
  unfold ReelUpDown.backoutCompensation. cbv zeta.
  destruct (ReelUpDown.crossedUpperThreshold _); simpl;
    rewrite length_map; apply upDown_loopReel_length.
Qed.

Lemma upDown_tweenOnUpdate_length w :
  length (ReelUpDown.symbols (ReelUpDown.reel
            (ReelUpDown.tweenOnUpdate symbolTextures random w)))
  = length (ReelUpDown.symbols (ReelUpDown.reel w)).
Proof.
  unfold ReelUpDown.tweenOnUpdate.
  destruct (ReelUpDown.tween w) as [tw|]; [|reflexivity].
  cbv zeta. destruct (Js.gt _ _); [|reflexivity].
  set (w1 := ReelUpDown.loopReel symbolTextures random w).
  assert (H1 : length (ReelUpDown.symbols (ReelUpDown.reel w1))
               = length (ReelUpDown.symbols (ReelUpDown.reel w)))
    by apply upDown_loopReel_length.
  assert (H2 : forall t v, ReelUpDown.symbols (ReelUpDown.reel (ReelUpDown.tweenSeek t v))
                           = ReelUpDown.symbols (ReelUpDown.reel v))
    by (intros t v; unfold ReelUpDown.tweenSeek;
        destruct (ReelUpDown.tween v); reflexivity).
  assert (H3 : forall v, ReelUpDown.symbols (ReelUpDown.reel (ReelUpDown.tweenPause v))
                         = ReelUpDown.symbols (ReelUpDown.reel v))
    by (intro v; unfold ReelUpDown.tweenPause;
        destruct (ReelUpDown.tween v); reflexivity).
  assert (H4 : forall v, ReelUpDown.symbols
                           (ReelUpDown.reel (ReelUpDown.beginStoppingAnimation v))
                         = ReelUpDown.symbols (ReelUpDown.reel v))
    by (intro v; unfold ReelUpDown.beginStoppingAnimation;
        destruct (ReelUpDown.stopping _); reflexivity).
  destruct (ReelUpDown.needsToStop _); rewrite ?H4, ?H3, H2; exact H1.
Qed.

Lemma upDown_step_length w e :
  length (ReelUpDown.symbols (ReelUpDown.reel
            (ReelUpDown.step symbolTextures random w e)))
  = length (ReelUpDown.symbols (ReelUpDown.reel w)).
Proof.
  destruct e; simpl.
  - reflexivity.
  - reflexivity.
  - destruct (ReelUpDown.easeInRunning w); reflexivity.
  - destruct (ReelUpDown.easeInRunning w); [|reflexivity].
    unfold ReelUpDown.startSpinningResume. cbv zeta. simpl.
    rewrite upDown_loopReel_length. reflexivity.
  - destruct (ReelUpDown.tween w) as [tw|] eqn:E; [|reflexivity].
    destruct (paused tw); [reflexivity|].
    rewrite upDown_tweenOnUpdate_length.
    unfold ReelUpDown.tweenSeek. rewrite E. reflexivity.
  - destruct (ReelUpDown.stoppingRunning w); [|reflexivity].
    rewrite upDown_stoppingOnUpdate_length. reflexivity.
  - destruct (ReelUpDown.stoppingRunning w); [|reflexivity].
    unfold ReelUpDown.beginStoppingAnimationResume. cbv zeta. simpl.
    rewrite upDown_loopReel_length. simpl.
    rewrite upDown_stoppingOnUpdate_length. reflexivity.
Qed.

(** *** The four-direction reel *)

Lemma fourWay_loopSymbols_length r l k :
  length (fst (ReelFourWay.loopSymbols symbolTextures random r l k)) = length l.
Proof.
  revert k. induction l as [|s l IH]; intro k; simpl; [reflexivity|].
  destruct (ReelFourWay.shiftSymbolPosition symbolTextures random r s k) as [s' k1].
  specialize (IH k1).
  destruct (ReelFourWay.loopSymbols symbolTextures random r l k1) as [l'' k2].
  simpl in *. congruence.
Qed.

Lemma fourWay_loopReel_length w :
  length (ReelFourWay.symbols (ReelFourWay.reel
            (ReelFourWay.loopReel symbolTextures random w)))
  = length (ReelFourWay.symbols (ReelFourWay.reel w)).
Proof.
  unfold ReelFourWay.loopReel.
  pose proof (fourWay_loopSymbols_length (ReelFourWay.reel w)
                (ReelFourWay.symbols (ReelFourWay.reel w))
                (ReelFourWay.randomCalls w)) as H.
  destruct (ReelFourWay.loopSymbols _ _ _ _ _). exact H.
Qed.

Lemma fourWay_tweenOnUpdate_length w :
  length (ReelFourWay.symbols (ReelFourWay.reel
            (ReelFourWay.tweenOnUpdate symbolTextures random w)))
  = length (ReelFourWay.symbols (ReelFourWay.reel w)).
Proof.
  unfold ReelFourWay.tweenOnUpdate.
  destruct (ReelFourWay.tween w) as [tw|]; [|reflexivity].
  cbv zeta. destruct (Js.gt _ _); [|reflexivity].
  set (w1 := ReelFourWay.loopReel symbolTextures random w).
  assert (H1 : length (ReelFourWay.symbols (ReelFourWay.reel w1))
               = length (ReelFourWay.symbols (ReelFourWay.reel w)))
    by apply fourWay_loopReel_length.
  assert (H2 : forall t v, ReelFourWay.symbols
                             (ReelFourWay.reel (ReelFourWay.tweenSeek t v))
                           = ReelFourWay.symbols (ReelFourWay.reel v))
    by (intros t v; unfold ReelFourWay.tweenSeek;
        destruct (ReelFourWay.tween v); reflexivity).
  assert (H3 : forall v, ReelFourWay.symbols
                           (ReelFourWay.reel (ReelFourWay.tweenPause v))
                         = ReelFourWay.symbols (ReelFourWay.reel v))
    by (intro v; unfold ReelFourWay.tweenPause;
        destruct (ReelFourWay.tween v); reflexivity).
  unfold ReelFourWay.beginStoppingAnimation.
  destruct (ReelFourWay.needsToStop _); rewrite ?H3, H2; exact H1.
Qed.

Lemma fourWay_step_length w e :
  length (ReelFourWay.symbols (ReelFourWay.reel
            (ReelFourWay.step symbolTextures random w e)))
  = length (ReelFourWay.symbols (ReelFourWay.reel w)).
Proof.
  destruct e; simpl.
  - reflexivity.
  - reflexivity.
  - destruct (ReelFourWay.easeIn w); reflexivity.
  - destruct (ReelFourWay.easeIn w) as [[tx ty]|]; [|reflexivity].
    unfold ReelFourWay.startSpinningResume. cbv zeta.
    destruct (ReelFourWay.getSpinningReelPosition _). simpl.
    rewrite fourWay_loopReel_length. reflexivity.
  - destruct (ReelFourWay.tween w) as [tw|] eqn:E; [|reflexivity].
    destruct (ReelFourWay.paused tw); [reflexivity|].
    rewrite fourWay_tweenOnUpdate_length.
    unfold ReelFourWay.tweenSeek. rewrite E. reflexivity.
Qed.

(** In the up/down and the four-direction drafts too, a reel is built with
    [symbolsPerReel + 1] symbols, for every moving direction, and no
    sequence of events changes their number. *)
Theorem symbols_count_invariant_later_drafts
    (config : Config.GameConfig) (k : nat) :
  (forall evs,
     length (ReelUpDown.symbols (ReelUpDown.reel
               (ReelUpDown.run symbolTextures random
                  (ReelUpDown.constructor symbolTextures random config k) evs)))
     = (Config.symbolsPerReel config + 1)%nat)
  /\ (forall evs,
     length (ReelFourWay.symbols (ReelFourWay.reel
               (ReelFourWay.run symbolTextures random
                  (ReelFourWay.constructor symbolTextures random config k) evs)))
     = (Config.symbolsPerReel config + 1)%nat).
Proof.
  split; intro evs.
  - assert (H : forall w,
        length (ReelUpDown.symbols (ReelUpDown.reel
                  (ReelUpDown.run symbolTextures random w evs)))
        = length (ReelUpDown.symbols (ReelUpDown.reel w))).
    { induction evs as [|e evs IH]; intro w; [reflexivity|].
      unfold ReelUpDown.run in *. simpl. rewrite IH. apply upDown_step_length. }
    rewrite H. simpl. unfold ReelUpDown.placeSymbols, ReelUpDown.newSymbols.
    rewrite length_map, length_combine, !length_map, !length_seq.
    apply Nat.min_id.
  - assert (H : forall w,
        length (ReelFourWay.symbols (ReelFourWay.reel
                  (ReelFourWay.run symbolTextures random w evs)))
        = length (ReelFourWay.symbols (ReelFourWay.reel w))).
    { induction evs as [|e evs IH]; intro w; [reflexivity|].
      unfold ReelFourWay.run in *. simpl. rewrite IH. apply fourWay_step_length. }
    rewrite H. simpl. unfold ReelFourWay.newSymbols.
    rewrite length_map, length_combine, !length_map, !length_seq.
    apply Nat.min_id.
Qed.

(** Once the four-direction reel has honoured a stop request, at a frame
    of its running looping tween past [spinningTweenDuration] with
    [needsToStop] set, that tween is paused and no stopping tween exists:
    further frames and further stop requests leave the reel exactly as it
    is, never at rest and with nothing emitted. *)
Theorem fourWay_stop_request_freezes_reel
    (w : ReelFourWay.State) (t : Q) (tw : ReelFourWay.AxisTween)
    (evs : list ReelFourWay.Event) :
  ReelFourWay.tween w = Some tw ->
  ReelFourWay.paused tw = false ->
  ReelFourWay.needsToStop (ReelFourWay.reel w) = true ->
  ReelFourWay.spinningTweenDuration (ReelFourWay.reel w) < t ->
  Forall (fun e => e = ReelFourWay.CallStopSpinning
                   \/ exists t', e = ReelFourWay.LoopFrame t') evs ->
  let w1 := ReelFourWay.step symbolTextures random w (ReelFourWay.LoopFrame t) in
  option_map ReelFourWay.paused (ReelFourWay.tween w1) = Some true
  /\ ReelFourWay.run symbolTextures random w1 evs = w1
  /\ ReelFourWay.emitted w1 = ReelFourWay.emitted w
  /\ ReelFourWay.stopping (ReelFourWay.reel w1)
     = ReelFourWay.stopping (ReelFourWay.reel w).
Proof.
  intros E P N Ht Hevs w1.
  assert (Hq : ReelFourWay.emitted w1 = ReelFourWay.emitted w
               /\ ReelFourWay.stopping (ReelFourWay.reel w1)
                  = ReelFourWay.stopping (ReelFourWay.reel w))
    by apply ReelFourWayFacts.step_quiet.
  assert (Hp : exists tw1, ReelFourWay.tween w1 = Some tw1
                           /\ ReelFourWay.paused tw1 = true
                           /\ ReelFourWay.needsToStop (ReelFourWay.reel w1) = true).
  { unfold w1. cbn [ReelFourWay.step]. rewrite E, P.
    unfold ReelFourWay.tweenOnUpdate.
    assert (T0 : ReelFourWay.tween (ReelFourWay.tweenSeek t w)
                 = Some (ReelFourWay.mkAxisTween t false (ReelFourWay.fromX tw)
                           (ReelFourWay.fromY tw) (ReelFourWay.toX tw)
                           (ReelFourWay.toY tw)))
      by (unfold ReelFourWay.tweenSeek; rewrite E, P; reflexivity).
    rewrite T0. cbv zeta. cbn [ReelFourWay.time].
    assert (D0 : ReelFourWay.spinningTweenDuration
                   (ReelFourWay.reel (ReelFourWay.tweenSeek t w))
                 = ReelFourWay.spinningTweenDuration (ReelFourWay.reel w))
      by (unfold ReelFourWay.tweenSeek; rewrite E; reflexivity).
    rewrite D0. apply JsFacts.gt_spec in Ht. rewrite Ht.
    set (w2 := ReelFourWay.loopReel symbolTextures random (ReelFourWay.tweenSeek t w)).
    assert (L : ReelFourWay.tween w2 = ReelFourWay.tween (ReelFourWay.tweenSeek t w)
                /\ ReelFourWay.needsToStop (ReelFourWay.reel w2) = true).
    { unfold w2, ReelFourWay.loopReel.
      destruct (ReelFourWay.loopSymbols _ _ _ _ _). simpl.
      unfold ReelFourWay.tweenSeek. rewrite E. simpl. auto. }
    destruct L as (L1 & L2). rewrite T0 in L1.
    set (r := Js.rem t _).
    assert (S2 : ReelFourWay.needsToStop
                   (ReelFourWay.reel (ReelFourWay.tweenSeek r w2)) = true
                 /\ ReelFourWay.tween (ReelFourWay.tweenSeek r w2)
                    = Some (ReelFourWay.mkAxisTween r false (ReelFourWay.fromX tw)
                              (ReelFourWay.fromY tw) (ReelFourWay.toX tw)
                              (ReelFourWay.toY tw)))
      by (unfold ReelFourWay.tweenSeek; rewrite L1; simpl; auto).
    destruct S2 as (S2n & S2t). rewrite S2n.
    unfold ReelFourWay.beginStoppingAnimation, ReelFourWay.tweenPause.
    rewrite S2t. eexists. simpl. repeat split. exact S2n. }
  destruct Hp as (tw1 & T1 & P1 & N1).
  split; [rewrite T1; simpl; rewrite P1; reflexivity|].
  split; [|exact Hq].
  clear Hq. induction Hevs as [|e evs He _ IH]; [reflexivity|].
  cbn [ReelFourWay.run fold_left].
  assert (Hs : ReelFourWay.step symbolTextures random w1 e = w1).
  { destruct He as [->|[t' ->]]; cbn [ReelFourWay.step].
    - unfold ReelFourWay.stopSpinning.
      destruct w1 as [[sy st bo ne sw sh rw rh di du px py] ei twn rc em].
      simpl in N1. subst ne. reflexivity.
    - rewrite T1, P1. reflexivity. }
  rewrite Hs. exact IH.
Qed.

End World.

(** The hard-coded four-direction reel, latched to stop: the frame at
    100 ms pauses its tween, and the frames that follow change nothing. *)
Lemma fourWay_stop_request_freezes_reel_witness :
  let w := ReelFourWay.run Examples.textures Examples.random Examples.reelFourWay
             [ReelFourWay.CallStartSpinning 0; ReelFourWay.EaseInComplete;
              ReelFourWay.CallStopSpinning] in
  let w1 := ReelFourWay.step Examples.textures Examples.random w
              (ReelFourWay.LoopFrame 100) in
  ReelFourWay.run Examples.textures Examples.random w1 Examples.laterFrames = w1.
Proof.
  cbv zeta.
  assert (Hevs : Forall (fun e => e = ReelFourWay.CallStopSpinning
                                  \/ exists t', e = ReelFourWay.LoopFrame t')
                        Examples.laterFrames)
    by (repeat constructor; eauto).
  destruct (fourWay_stop_request_freezes_reel Examples.textures Examples.random
              (ReelFourWay.run Examples.textures Examples.random Examples.reelFourWay
                 [ReelFourWay.CallStartSpinning 0; ReelFourWay.EaseInComplete;
                  ReelFourWay.CallStopSpinning])
              100
              (ReelFourWay.mkAxisTween 0 false 0 (400 / Js.ofNat 4) 0
                 (400 / Js.ofNat 4 + 400 / Js.ofNat 4 * 2))
              Examples.laterFrames eq_refl eq_refl eq_refl eq_refl Hevs)
    as (_ & H & _).
  exact H.
Defined.

End DraftsFacts.

(** ** The four-direction reel moving down: where a wrapped symbol lands *)

Module FourWayPassFacts.

Import ReelFourWay FourWayPasses.

Section World.

Variable symbolTextures : list Texture.
Variable random : nat -> Q.

Notation loopReel := (ReelFourWay.loopReel symbolTextures random).
Notation passes := (FourWayPasses.passes symbolTextures random).








End World.


End FourWayPassFacts.
